(** * smart_split.py: outline-driven PDF split plans

    A shallow embedding of [src/smart_split.py] and the properties of its
    outline selector ([get_split_nodes]), its plan builder
    ([generate_split_plan]), its file-name sanitiser ([sanitize_filename]),
    the exit decision of [main] and the page copying of [execute_split].

    Conventions of the embedding.
    - A Python [str] is a list of Unicode code points ([pystr]).
    - A Python [int] is a [Z]; [len(...)] results and loop indices are [nat].
    - [print] is modelled by returning the printed lines next to the
      result, in the order they are printed.
    - The pypdf reader is an input: an outline item carries the answer
      that [get_destination_page_number] gives for it ([None] when the
      library raises), and the reader carries [len(reader.pages)]. *)

From Stdlib Require Import List ZArith NArith Lia Bool String Ascii Sorted.
From Stdlib Require Import DecimalString.
From Stdlib Require DecimalNat DecimalFacts.
Import ListNotations.

Set Warnings "-register-all".

Open Scope Z_scope.

(** ** Python strings *)

Definition pystr := list N.

(** An ASCII literal as a Python string. *)
Definition lit (s : string) : pystr :=
  map N_of_ascii (list_ascii_of_string s).

(** [str(n)] for an integer. *)
Definition str_of_Z (z : Z) : pystr :=
  lit (NilZero.string_of_int (Z.to_int z)).

(** The format [{n:02d}] for a non-negative [n]: decimal, padded with a
    zero on the left up to width two. *)
Definition format_02d (n : nat) : pystr :=
  let d := lit (NilZero.string_of_uint (Nat.to_uint n)) in
  if (List.length d <? 2)%nat then lit "0" ++ d else d.

(** [str.isspace] on one code point (CPython's [_PyUnicode_IsWhitespace]). *)
Definition isspace (c : N) : bool :=
  ((9 <=? c) && (c <=? 13) || (28 <=? c) && (c <=? 32)
   || (c =? 133) || (c =? 160) || (c =? 5760)
   || (8192 <=? c) && (c <=? 8202)
   || (c =? 8232) || (c =? 8233) || (c =? 8239) || (c =? 8287)
   || (c =? 12288))%N.

Fixpoint lstrip (s : pystr) : pystr :=
  match s with
  | [] => []
  | c :: s' => if isspace c then lstrip s' else s
  end.

Definition rstrip (s : pystr) : pystr := rev (lstrip (rev s)).

(** [s.strip()] *)
Definition strip (s : pystr) : pystr := rstrip (lstrip s).

(** [sep.join(words)] *)
Fixpoint join (sep : pystr) (words : list pystr) : pystr :=
  match words with
  | [] => []
  | [w] => w
  | w :: ws => w ++ sep ++ join sep ws
  end.

(** [s.split(c)] for a one-character separator: the result is never
    empty, and consecutive separators give empty words. *)
Fixpoint split_on (sep : N) (s : pystr) : list pystr :=
  match s with
  | [] => [[]]
  | c :: s' =>
      if (c =? sep)%N then [] :: split_on sep s'
      else match split_on sep s' with
           | [] => [[c]]
           | w :: ws => (c :: w) :: ws
           end
  end.

(** ** [sanitize_filename] *)

Definition underscore : N := 95.
Definition space : N := 32.

(** The character class of the regular expression in the source: backslash,
    slash, star, question mark, colon, double quote (code 34), comma,
    less-than, greater-than and bar. *)
Definition invalid_chars : list N :=
  lit "\/*?:" ++ [34%N] ++ lit ",<>|".

Definition is_invalid (c : N) : bool := existsb (N.eqb c) invalid_chars.

(** [re.sub] of that class by an underscore: every matching character is
    replaced on its own. *)
Definition re_sub_invalid (s : pystr) : pystr :=
  map (fun c => if is_invalid c then underscore else c) s.

(** [s.replace] of a space by an underscore. *)
Definition replace_spaces (s : pystr) : pystr :=
  map (fun c => if (c =? space)%N then underscore else c) s.

Definition sanitize_filename (filename : pystr) : pystr :=
  let s := re_sub_invalid filename in
  let s := replace_spaces s in
  strip s.

(** A character that [sanitize_filename] leaves alone. *)
Definition kept (c : N) : bool := negb (is_invalid c) && negb (c =? space)%N.

(** The nine characters the specification lists as forbidden: backslash,
    slash, star, question mark, colon, double quote, less-than, greater-than
    and bar (the class of the source without the comma). *)
Definition spec_forbidden : list N :=
  lit "\/*?:" ++ [34%N] ++ lit "<>|".

(** ** The outline and the boundary nodes *)

(** An element of a pypdf outline: a destination, with its title and the
    page [get_destination_page_number] resolves it to ([None] when the
    destination is broken or external), or a nested list.  A list that
    directly follows a destination holds that destination's children. *)
Inductive item : Type :=
| Dest (title : pystr) (page_num : option Z)
| Sub (children : list item).

(** The dictionary appended to [nodes], with the keys of the source. *)
Record node : Type := mk_node { title : pystr; page : Z; level : Z }.

(** The guarded append of the source: the node is added only when its page
    resolved. *)
Definition append_node (t : pystr) (page_num : option Z) (current_depth : Z)
  : list node :=
  match page_num with
  | Some p => [mk_node t p current_depth]
  | None => []
  end.

(** The [while] loop of [get_split_nodes] over the list held by [it].  The
    first [for] loop of the source only computes values it discards and is
    left out.  One round of the loop looks at [outline[i]] and, for a
    destination, at [outline[i+1]]; it then goes on at [i+1] or [i+2]. *)
Fixpoint walk (it : item) (current_depth target_depth : Z) {struct it}
  : list node :=
  match it with
  | Dest _ _ => []
  | Sub outline =>
      (fix loop (outline : list item) : list node :=
         match outline with
         | [] => []
         | (Sub _ as nested) :: rest =>
             (* isinstance(item, list): recurse, i += 1 *)
             walk nested (current_depth + 1) target_depth ++ loop rest
         | Dest t page_num :: rest =>
             match rest with
             | (Sub _ as children) :: rest' =>
                 (* has_children = True, i += 2 *)
                 (if current_depth =? target_depth then
                    append_node t page_num current_depth
                  else if current_depth <? target_depth then
                    walk children (current_depth + 1) target_depth
                  else [])
                 ++ loop rest'
             | _ =>
                 (* has_children = False, i += 1 *)
                 (if current_depth =? target_depth then
                    append_node t page_num current_depth
                  else if current_depth <? target_depth then
                    append_node t page_num current_depth
                  else [])
                 ++ loop rest
             end
         end) outline
  end.

Definition get_split_nodes (outline : list item)
  (current_depth target_depth : Z) : list node :=
  walk (Sub outline) current_depth target_depth.

(** ** The destinations of an outline, for stating the properties *)

(** One destination of the outline as the traversal sees it: its title, its
    resolved page, the depth it sits at, and whether a list follows it. *)
Record occurrence : Type := mk_occ {
  occ_title : pystr;
  occ_page : option Z;
  occ_depth : Z;
  occ_has_children : bool
}.

(** All destinations of the list held by [it], depth first and left to
    right, a destination before its children.  A list that follows no
    destination is one level deeper, as in the source. *)
Fixpoint walk_all (it : item) (depth : Z) {struct it} : list occurrence :=
  match it with
  | Dest _ _ => []
  | Sub outline =>
      (fix loop (outline : list item) : list occurrence :=
         match outline with
         | [] => []
         | (Sub _ as nested) :: rest => walk_all nested (depth + 1) ++ loop rest
         | Dest t page_num :: rest =>
             match rest with
             | (Sub _ as children) :: rest' =>
                 mk_occ t page_num depth true
                 :: walk_all children (depth + 1) ++ loop rest'
             | _ => mk_occ t page_num depth false :: loop rest
             end
         end) outline
  end.

Definition destinations (outline : list item) (depth : Z) : list occurrence :=
  walk_all (Sub outline) depth.

(** The selection rule: a resolved destination at the target depth, or a
    resolved childless destination above it. *)
Definition selected (target_depth : Z) (o : occurrence) : list node :=
  if (occ_depth o =? target_depth)
     || (occ_depth o <? target_depth) && negb (occ_has_children o)
  then append_node (occ_title o) (occ_page o) (occ_depth o)
  else [].

(** No destination of the outline resolves. *)
Definition all_unresolved (outline : list item) : Prop :=
  forall o, In o (destinations outline 1) -> occ_page o = None.

(** The number of constructors of an outline, the measure of the
    induction principle below. *)
Fixpoint item_size (it : item) : nat :=
  match it with
  | Dest _ _ => 1
  | Sub l => S (fold_right (fun x n => (item_size x + n)%nat) 0%nat l)
  end.

Definition outline_size (outline : list item) : nat :=
  fold_right (fun x n => (item_size x + n)%nat) 0%nat outline.

(** The next element is not a list: the destination before it has no
    children. *)
Definition no_list_ahead (rest : list item) : Prop :=
  match rest with
  | Sub _ :: _ => False
  | _ => True
  end.

(** ** The plan builder *)

(** The dictionary appended to [plan], with the keys of the source. *)
Record entry : Type := mk_entry {
  entry_title : pystr;
  start_page : Z;
  end_page : Z;
  filename : pystr
}.

(** [raw_nodes.sort(key=lambda x: x['page'])].  Python's sort is stable; the
    stable sort of a list is unique, here computed by insertion. *)
Fixpoint insert_by_page (x : node) (l : list node) : list node :=
  match l with
  | [] => [x]
  | y :: l' => if page x <=? page y then x :: l else y :: insert_by_page x l'
  end.

Fixpoint sort_by_page (l : list node) : list node :=
  match l with
  | [] => []
  | x :: l' => insert_by_page x (sort_by_page l')
  end.

Definition warning_line (t : pystr) (start : Z) : pystr :=
  lit "Warning: Section '" ++ t ++ lit "' starts and ends on same page ("
  ++ str_of_Z start ++ lit "). Skipping or merging.".

Definition make_filename (prefix : pystr) (i : nat) (t : pystr) : pystr :=
  prefix ++ lit "_" ++ format_02d (i + 1) ++ lit "_" ++ sanitize_filename t
  ++ lit ".pdf".

(** The [for i, node in enumerate(raw_nodes)] loop: [todo] is what is left
    of [raw_nodes] from index [i] on.  The result is the plan and the
    printed lines. *)
Fixpoint plan_loop (raw_nodes : list node) (total_pages : Z) (prefix : pystr)
  (i : nat) (todo : list node) : list entry * list pystr :=
  match todo with
  | [] => ([], [])
  | nd :: todo' =>
      let start := page nd in
      let t := title nd in
      let end_ :=
        match nth_error raw_nodes (i + 1) with
        | Some next => page next
        | None => total_pages
        end in
      let '(plan, printed) :=
        plan_loop raw_nodes total_pages prefix (S i) todo' in
      if start >=? end_ then (plan, warning_line t start :: printed)
      else (mk_entry t start end_ (make_filename prefix i t) :: plan, printed)
  end.

(** The loop again, for the proofs: the same rounds, with the next node
    read off the rest of the list instead of [raw_nodes[i+1]]
    (see [plan_loop_from]). *)
Definition next_start (total_pages : Z) (todo' : list node) : Z :=
  match todo' with
  | next :: _ => page next
  | [] => total_pages
  end.

Fixpoint plan_from (total_pages : Z) (prefix : pystr) (i : nat)
  (todo : list node) : list entry * list pystr :=
  match todo with
  | [] => ([], [])
  | nd :: todo' =>
      let end_ := next_start total_pages todo' in
      let r := plan_from total_pages prefix (S i) todo' in
      if page nd >=? end_
      then (fst r, warning_line (title nd) (page nd) :: snd r)
      else (mk_entry (title nd) (page nd) end_
              (make_filename prefix i (title nd)) :: fst r, snd r)
  end.

(** Pages in ascending order, neighbour by neighbour. *)
Fixpoint ascending (l : list node) : Prop :=
  match l with
  | [] => True
  | a :: l' =>
      match l' with
      | [] => True
      | b :: _ => page a <= page b
      end /\ ascending l'
  end.

(** What the plan builder needs of pypdf's reader. *)
Record PdfReader : Type := mk_reader {
  outline : list item;      (* reader.outline *)
  num_pages : nat           (* len(reader.pages) *)
}.

(** [PdfReader(pdf_path)]: the reader, or the exception's message. *)
Inductive open_result : Type :=
| OpenError (e : pystr)
| Opened (reader : PdfReader).

(** The prefix derived from the file name: at most ten words of the
    sanitised name. *)
Definition default_prefix (name_without_ext : pystr) : pystr :=
  let clean_name := sanitize_filename name_without_ext in
  let words := split_on underscore clean_name in
  let words := if (10 <? List.length words)%nat then firstn 10 words else words in
  join (lit "_") words.

(** [if not prefix]: [None] and the empty string both count as absent. *)
Definition resolve_prefix (name_without_ext : pystr) (prefix : option pystr)
  : pystr :=
  match prefix with
  | None | Some [] => default_prefix name_without_ext
  | Some p => sanitize_filename p
  end.

(** [generate_split_plan].  [opened] is the outcome of opening [pdf_path]
    and [name_without_ext] is
    [os.path.splitext(os.path.basename(pdf_path))[0]]. *)
Definition generate_split_plan (opened : open_result)
  (name_without_ext : pystr) (layer : Z) (prefix : option pystr)
  : list entry * list pystr :=
  match opened with
  | OpenError e => ([], [lit "Error opening PDF: " ++ e])
  | Opened reader =>
      match outline reader with
      | [] => ([], [lit "PDF has no outline."])
      | _ =>
          let prefix := resolve_prefix name_without_ext prefix in
          let raw_nodes := get_split_nodes (outline reader) 1 layer in
          match raw_nodes with
          | [] => ([], [lit "No matching outline items found."])
          | _ =>
              let raw_nodes := sort_by_page raw_nodes in
              let total_pages := Z.of_nat (num_pages reader) in
              plan_loop raw_nodes total_pages prefix 0 raw_nodes
          end
      end
  end.

(** ** [main] up to the exit decision *)

(** Either [sys.exit(code)], or [main] goes on with the plan: it lists the
    sections and hands the plan to the plan file and to [execute_split]. *)
Inductive outcome : Type :=
| SysExit (code : Z)
| Continue (plan : list entry).

Definition section_line (e : entry) : pystr :=
  lit "  - " ++ filename e ++ lit ": Pages " ++ str_of_Z (start_page e)
  ++ lit " to " ++ str_of_Z (end_page e).

Definition main (opened : open_result) (name_without_ext : pystr)
  (layer : Z) (prefix : option pystr) : outcome * list pystr :=
  let line1 :=
    lit "Analyzing PDF outline at layer " ++ str_of_Z layer ++ lit "..." in
  let '(plan, printed) :=
    generate_split_plan opened name_without_ext layer prefix in
  match plan with
  | [] =>
      (SysExit 1,
       line1 :: printed ++ [lit "Could not generate a valid split plan."])
  | _ =>
      (Continue plan,
       line1 :: printed
       ++ [lit "Found " ++ str_of_Z (Z.of_nat (List.length plan))
           ++ lit " sections."]
       ++ map section_line plan)
  end.

(** ** Ranges of a plan *)

(** Page [q] lies in the half-open range of [e]. *)
Definition in_range (q : Z) (e : entry) : Prop :=
  start_page e <= q < end_page e.

Definition range_of (e : entry) : Z * Z := (start_page e, end_page e).

(** The entries tile [[lo, hi)]: each starts where the one before it ends,
    none is empty, the first starts at [lo] and the last ends at [hi]. *)
Fixpoint tiles (lo hi : Z) (plan : list entry) : Prop :=
  match plan with
  | [] => lo = hi
  | e :: plan' =>
      start_page e = lo /\ lo < end_page e /\ tiles (end_page e) hi plan'
  end.

(** ** The scenarios of the specification *)

Definition scenario_outline : list item :=
  [Dest (lit "A") (Some 0);
   Sub [Dest (lit "A1") (Some 0); Dest (lit "A2") (Some 5)];
   Dest (lit "B") (Some 10)].

Definition scenario_reader : PdfReader := mk_reader scenario_outline 15.

(** Two boundaries on one page, in a document of ten pages. *)
Definition tie_reader : PdfReader :=
  mk_reader [Dest (lit "X") (Some 3); Dest (lit "Y") (Some 3)] 10.

(** A boundary beyond the last page. *)
Definition overshoot_reader : PdfReader :=
  mk_reader [Dest (lit "X") (Some 3); Dest (lit "Y") (Some 20)] 10.

(** An unresolved destination with a resolved child. *)
Definition orphaned_outline : list item :=
  [Dest (lit "A") None; Sub [Dest (lit "A1") (Some 0)]].

Definition orphaned_reader : PdfReader := mk_reader orphaned_outline 5.

(** ** [execute_split] *)

(** [range(start, stop)] *)
Definition py_range (start stop : Z) : list Z :=
  map (fun k => start + Z.of_nat k) (seq 0 (Z.to_nat (stop - start))).

(** [reader.pages[p]] for a document of [n] pages, as the index of the page
    that is returned: a negative [p] counts from the end, and [None] stands
    for the [IndexError] of an index out of range. *)
Definition page_at (n : nat) (p : Z) : option nat :=
  let p' := if p <? 0 then Z.of_nat n + p else p in
  if (p' <? 0) || (Z.of_nat n <=? p') then None else Some (Z.to_nat p').

(** The inner loop, [writer.add_page(reader.pages[p])] for each [p]: the
    pages of the writer, or [None] when an index is out of range. *)
Fixpoint add_pages (n : nat) (ps : list Z) : option (list nat) :=
  match ps with
  | [] => Some []
  | p :: ps' =>
      match page_at n p with
      | None => None
      | Some k =>
          match add_pages n ps' with
          | None => None
          | Some ks => Some (k :: ks)
          end
      end
  end.

(** A file that [execute_split] wrote: its path and the pages copied into
    it, as indices into the source document. *)
Record written : Type := mk_written {
  out_path : pystr;
  out_pages : list nat
}.

(** What [execute_split] needs of the file system.  Each call can raise
    ([OSError] for a directory that cannot be made or a file name that is
    too long, [ValueError] for a path with a NUL character, and so on);
    [false] stands for any exception. *)
Record file_system : Type := mk_fs {
  (* os.path.exists(output_dir), or os.makedirs(output_dir) succeeds *)
  dir_ready : pystr -> bool;
  (* open(out_path, wb) and writer.write(f) both succeed *)
  can_create : pystr -> bool
}.

(** The loop of [execute_split] over the plan, for a source document of [n]
    pages.  [path_join] stands for [os.path.join].  The result is the files
    written in full, the printed lines, and whether the loop ran to its end;
    [false] means that an exception stopped it, after the files before: an
    [IndexError] of [reader.pages[p]], or a failure to open or write the
    output file. *)
Fixpoint execute_split_loop (path_join : pystr -> pystr -> pystr)
  (fs : file_system) (n : nat) (plan : list entry) (output_dir : pystr)
  : list written * list pystr * bool :=
  match plan with
  | [] => ([], [], true)
  | item :: plan' =>
      match add_pages n (py_range (start_page item) (end_page item)) with
      | None => ([], [], false)
      | Some pages =>
          let out := path_join output_dir (filename item) in
          if can_create fs out then
            let '(files, printed, finished) :=
              execute_split_loop path_join fs n plan' output_dir in
            (mk_written out pages :: files,
             (lit "Created: " ++ out) :: printed,
             finished)
          else ([], [], false)
      end
  end.

(** [execute_split]: the directory is made when it is missing, the source
    is opened again ([source] is the outcome of [PdfReader(pdf_path)]), and
    the loop runs.  An exception of either step leaves nothing written. *)
Definition execute_split (path_join : pystr -> pystr -> pystr)
  (fs : file_system) (source : open_result) (plan : list entry)
  (output_dir : pystr) : list written * list pystr * bool :=
  if dir_ready fs output_dir then
    match source with
    | OpenError _ => ([], [], false)
    | Opened reader =>
        execute_split_loop path_join fs (num_pages reader) plan output_dir
    end
  else ([], [], false).

(** A file system on which every call of [execute_split] succeeds. *)
Definition willing_fs : file_system := mk_fs (fun _ => true) (fun _ => true).


(** ** Further notions for the properties *)

Definition is_digit (c : N) : bool := ((48 <=? c) && (c <=? 57))%N.

(** A string of characters that [sanitize_filename] leaves alone. *)
Definition clean (s : pystr) : Prop := Forall (fun c => kept c = true) s.

(** The boundary of a resolved destination without children. *)
Definition leaf_node (o : occurrence) : list node :=
  if occ_has_children o then []
  else append_node (occ_title o) (occ_page o) (occ_depth o).

(** An outline without nested lists. *)
Definition flat_outline (l : list (pystr * option Z)) : list item :=
  map (fun tp => Dest (fst tp) (snd tp)) l.

(** * Properties *)

(** ** Stripping *)

Section Strip.

Lemma lstrip_suffix (s : pystr) : exists w, s = w ++ lstrip s.
Proof.
  induction s as [|c s [w Hw]]; simpl.
  - now exists [].
  - destruct (isspace c).
    + exists (c :: w). simpl. now f_equal.
    + now exists [].
Qed.

Lemma lstrip_head (s : pystr) c r : lstrip s = c :: r -> isspace c = false.
Proof.
  induction s as [|a s IH]; simpl; [discriminate|].
  destruct (isspace a) eqn:E; [exact IH|].
  intros [= <- _]. exact E.
Qed.

Lemma lstrip_fixed (s : pystr) :
  match s with [] => True | c :: _ => isspace c = false end -> lstrip s = s.
Proof. destruct s as [|c s]; simpl; [easy|]. now intros ->. Qed.

Lemma lstrip_idem (s : pystr) : lstrip (lstrip s) = lstrip s.
Proof.
  apply lstrip_fixed. destruct (lstrip s) eqn:E; [easy|].
  now apply lstrip_head in E.
Qed.

Lemma rstrip_prefix (s : pystr) : exists w, s = rstrip s ++ w.
Proof.
  unfold rstrip. destruct (lstrip_suffix (rev s)) as [w Hw].
  exists (rev w). rewrite <- rev_app_distr, <- Hw. now rewrite rev_involutive.
Qed.

Lemma rstrip_idem (s : pystr) : rstrip (rstrip s) = rstrip s.
Proof. unfold rstrip. now rewrite rev_involutive, lstrip_idem. Qed.

Lemma rstrip_last (s : pystr) pre c : rstrip s = pre ++ [c] -> isspace c = false.
Proof.
  unfold rstrip. intros H. apply (f_equal (@rev N)) in H.
  rewrite rev_involutive, rev_app_distr in H. simpl in H.
  now apply lstrip_head in H.
Qed.

Lemma strip_head (s : pystr) c r : strip s = c :: r -> isspace c = false.
Proof.
  unfold strip. intros H.
  destruct (rstrip_prefix (lstrip s)) as [w Hw]. rewrite H in Hw.
  simpl in Hw. now apply lstrip_head in Hw.
Qed.

Lemma strip_last (s : pystr) pre c : strip s = pre ++ [c] -> isspace c = false.
Proof. apply rstrip_last. Qed.

Lemma strip_idem (s : pystr) : strip (strip s) = strip s.
Proof.
  unfold strip at 1. rewrite (lstrip_fixed (strip s)).
  - unfold strip. apply rstrip_idem.
  - destruct (strip s) eqn:E; [easy|]. now apply strip_head in E.
Qed.

Lemma In_lstrip (s : pystr) c : In c (lstrip s) -> In c s.
Proof.
  destruct (lstrip_suffix s) as [w Hw]. intros H.
  rewrite Hw. apply in_or_app. now right.
Qed.

Lemma In_strip (s : pystr) c : In c (strip s) -> In c s.
Proof.
  unfold strip, rstrip. intros H.
  apply In_lstrip. apply in_rev in H. apply In_lstrip in H.
  now apply in_rev in H.
Qed.

End Strip.

(** ** Sanitising *)

Lemma substituted_kept (c : N) :
  kept (if ((if is_invalid c then underscore else c) =? space)%N
        then underscore else (if is_invalid c then underscore else c)) = true.
Proof.
  destruct (is_invalid c) eqn:E; [reflexivity|].
  destruct (c =? space)%N eqn:S; [reflexivity|].
  unfold kept. now rewrite E, S.
Qed.

Lemma substitutions_kept (s : pystr) :
  Forall (fun c => kept c = true) (replace_spaces (re_sub_invalid s)).
Proof.
  unfold replace_spaces, re_sub_invalid. rewrite map_map.
  apply Forall_forall. intros c Hc. apply in_map_iff in Hc.
  destruct Hc as [c0 [<- _]]. apply substituted_kept.
Qed.

Lemma substitutions_fixed (s : pystr) :
  Forall (fun c => kept c = true) s -> replace_spaces (re_sub_invalid s) = s.
Proof.
  induction 1 as [|c s Hc _ IH]; [reflexivity|].
  unfold replace_spaces, re_sub_invalid in *. simpl. rewrite IH. f_equal.
  unfold kept in Hc. apply andb_prop in Hc. destruct Hc as [H1 H2].
  apply negb_true_iff in H1, H2. now rewrite H1, H2.
Qed.

Lemma sanitize_kept (s : pystr) :
  Forall (fun c => kept c = true) (sanitize_filename s).
Proof.
  apply Forall_forall. intros c Hc. unfold sanitize_filename in Hc.
  apply In_strip in Hc.
  exact (proj1 (Forall_forall _ _) (substitutions_kept s) c Hc).
Qed.

Lemma kept_not_invalid (c : N) : kept c = true -> ~ In c invalid_chars.
Proof.
  unfold kept. intros H Hin. apply andb_prop in H. destruct H as [H _].
  apply negb_true_iff in H.
  assert (is_invalid c = true); [|congruence].
  unfold is_invalid. apply existsb_exists. exists c. split; [exact Hin|].
  apply N.eqb_refl.
Qed.

Lemma kept_not_space (c : N) : kept c = true -> c <> space.
Proof.
  unfold kept. intros H ->. apply andb_prop in H. destruct H as [_ H].
  discriminate H.
Qed.

Lemma spec_forbidden_invalid (c : N) : In c spec_forbidden -> In c invalid_chars.
Proof.
  unfold spec_forbidden, invalid_chars. simpl. intuition.
Qed.

(** C8: for every string, the result of [sanitize_filename] holds none of
    the nine forbidden characters of the specification and no space, neither
    starts nor ends with a whitespace character, and is a fixed point of
    [sanitize_filename]. *)
Theorem sanitize_filename_clean_idempotent (s : pystr) :
  (forall c, In c (sanitize_filename s) -> ~ In c spec_forbidden /\ c <> space)
  /\ (forall c r, sanitize_filename s = c :: r -> isspace c = false)
  /\ (forall pre c, sanitize_filename s = pre ++ [c] -> isspace c = false)
  /\ sanitize_filename (sanitize_filename s) = sanitize_filename s
  /\ sanitize_filename (lit "My:File?.pdf") = lit "My_File_.pdf".
Proof.
  pose proof (sanitize_kept s) as K.
  split; [|split; [|split; [|split; [|reflexivity]]]].
  - intros c Hc.
    pose proof (proj1 (Forall_forall _ _) K c Hc) as Kc. split.
    + intros F. exact (kept_not_invalid c Kc (spec_forbidden_invalid c F)).
    + exact (kept_not_space c Kc).
  - intros c r. apply strip_head.
  - intros pre c. apply strip_last.
  - unfold sanitize_filename at 1. rewrite (substitutions_fixed _ K).
    unfold sanitize_filename. apply strip_idem.
Qed.

Lemma sanitize_filename_clean_idempotent_witness :
  In underscore (sanitize_filename (lit "My:File?.pdf")) /\
  (~ In underscore spec_forbidden /\ underscore <> space).
Proof.
  split.
  - vm_compute. tauto.
  - apply (proj1 (sanitize_filename_clean_idempotent (lit "My:File?.pdf"))).
    vm_compute. tauto.
Defined.


(** ** The outline selector *)

Lemma get_split_nodes_nil cur d : get_split_nodes [] cur d = [].
Proof. reflexivity. Qed.

Lemma get_split_nodes_list l rest cur d :
  get_split_nodes (Sub l :: rest) cur d
  = get_split_nodes l (cur + 1) d ++ get_split_nodes rest cur d.
Proof. reflexivity. Qed.

Lemma get_split_nodes_parent t p ch rest cur d :
  get_split_nodes (Dest t p :: Sub ch :: rest) cur d
  = (if cur =? d then append_node t p cur
     else if cur <? d then get_split_nodes ch (cur + 1) d else [])
    ++ get_split_nodes rest cur d.
Proof. reflexivity. Qed.

Lemma get_split_nodes_leaf t p rest cur d :
  no_list_ahead rest ->
  get_split_nodes (Dest t p :: rest) cur d
  = (if (cur =? d) || (cur <? d) then append_node t p cur else [])
    ++ get_split_nodes rest cur d.
Proof.
  intros H. destruct rest as [|[t' p'|l] rest]; [| |destruct H];
    unfold get_split_nodes; simpl;
    destruct (cur =? d), (cur <? d); reflexivity.
Qed.

Lemma destinations_list l rest cur :
  destinations (Sub l :: rest) cur
  = destinations l (cur + 1) ++ destinations rest cur.
Proof. reflexivity. Qed.

Lemma destinations_parent t p ch rest cur :
  destinations (Dest t p :: Sub ch :: rest) cur
  = mk_occ t p cur true :: destinations ch (cur + 1) ++ destinations rest cur.
Proof. reflexivity. Qed.

Lemma destinations_leaf t p rest cur :
  no_list_ahead rest ->
  destinations (Dest t p :: rest) cur
  = mk_occ t p cur false :: destinations rest cur.
Proof.
  intros H. destruct rest as [|[t' p'|l] rest]; [| |destruct H]; reflexivity.
Qed.

(** Induction over an outline along the cases of the loop. *)
Lemma outline_cases_ind (P : list item -> Prop) :
  P [] ->
  (forall l rest, P l -> P rest -> P (Sub l :: rest)) ->
  (forall t p ch rest, P ch -> P rest -> P (Dest t p :: Sub ch :: rest)) ->
  (forall t p rest, no_list_ahead rest -> P rest -> P (Dest t p :: rest)) ->
  forall o, P o.
Proof.
  intros Hnil Hlist Hparent Hleaf.
  assert (H : forall n o, (outline_size o < n)%nat -> P o).
  { induction n as [|n IH]; intros o Hn; [lia|].
    destruct o as [|[t p|l] rest]; [exact Hnil| |].
    - destruct rest as [|[t' p'|ch] rest'].
      + apply Hleaf; [exact I|exact Hnil].
      + apply Hleaf; [exact I|]. apply IH.
        unfold outline_size in *. simpl in *. lia.
      + apply Hparent; apply IH; unfold outline_size in *; simpl in *; lia.
    - apply Hlist; apply IH; unfold outline_size in *; simpl in *; lia. }
  intros o. apply (H (S (outline_size o))). lia.
Qed.

Lemma destinations_depth o :
  forall cur x, In x (destinations o cur) -> cur <= occ_depth x.
Proof.
  induction o as [|l rest IHl IHr|t p ch rest IHc IHr|t p rest Hn IHr]
    using outline_cases_ind; intros cur x Hx.
  - destruct Hx.
  - rewrite destinations_list in Hx. apply in_app_or in Hx.
    destruct Hx as [Hx|Hx]; [apply IHl in Hx; lia|now apply IHr].
  - rewrite destinations_parent in Hx. destruct Hx as [<-|Hx]; [simpl; lia|].
    apply in_app_or in Hx.
    destruct Hx as [Hx|Hx]; [apply IHc in Hx; lia|now apply IHr].
  - rewrite destinations_leaf in Hx by exact Hn.
    destruct Hx as [<-|Hx]; [simpl; lia|now apply IHr].
Qed.

Lemma selected_deep d x : d < occ_depth x -> selected d x = [].
Proof.
  intros H. unfold selected.
  destruct (occ_depth x =? d) eqn:E1; [lia|].
  destruct (occ_depth x <? d) eqn:E2; [lia|]. reflexivity.
Qed.

Lemma flat_map_nothing {A B} (f : A -> list B) (l : list A) :
  (forall x, In x l -> f x = []) -> flat_map f l = [].
Proof.
  induction l as [|x l IH]; intros H; [reflexivity|].
  simpl. rewrite (H x (or_introl eq_refl)). apply IH.
  intros y Hy. apply H. now right.
Qed.

Lemma nothing_selected_below o cur d :
  d < cur -> flat_map (selected d) (destinations o cur) = [].
Proof.
  intros H. apply flat_map_nothing. intros x Hx.
  apply selected_deep. apply destinations_depth in Hx. lia.
Qed.

(** The selector is the depth-first enumeration of the destinations,
    filtered by the selection rule. *)
Lemma get_split_nodes_selected o :
  forall cur d,
    get_split_nodes o cur d = flat_map (selected d) (destinations o cur).
Proof.
  induction o as [|l rest IHl IHr|t p ch rest IHc IHr|t p rest Hn IHr]
    using outline_cases_ind; intros cur d.
  - reflexivity.
  - rewrite get_split_nodes_list, destinations_list, flat_map_app.
    now rewrite IHl, IHr.
  - rewrite get_split_nodes_parent, destinations_parent. simpl.
    rewrite flat_map_app, <- IHr. unfold selected at 1. simpl.
    rewrite andb_false_r, orb_false_r.
    destruct (cur =? d) eqn:E1.
    + rewrite nothing_selected_below by lia. reflexivity.
    + destruct (cur <? d) eqn:E2.
      * now rewrite IHc.
      * rewrite nothing_selected_below by lia. reflexivity.
  - rewrite get_split_nodes_leaf, destinations_leaf by exact Hn. simpl.
    rewrite <- IHr. unfold selected at 1. simpl. now rewrite andb_true_r.
Qed.

Lemma selected_inv d x n :
  In n (selected d x) ->
  occ_page x = Some (page n) /\ title n = occ_title x
  /\ level n = occ_depth x
  /\ (occ_depth x = d \/ occ_depth x < d /\ occ_has_children x = false).
Proof.
  unfold selected, append_node. intros H.
  destruct ((occ_depth x =? d)
            || (occ_depth x <? d) && negb (occ_has_children x)) eqn:E;
    [|destruct H].
  destruct (occ_page x) as [p|]; [|destruct H].
  destruct H as [<-|[]]. simpl. repeat split; try reflexivity.
  apply orb_prop in E. destruct E as [E|E]; [left; lia|right].
  apply andb_prop in E. destruct E as [E1 E2].
  apply negb_true_iff in E2. split; [lia|exact E2].
Qed.

(** Every boundary node stems from a resolved destination of the outline
    that the selection rule accepts. *)
Lemma boundary_origin o cur d n :
  In n (get_split_nodes o cur d) ->
  exists hc,
    In (mk_occ (title n) (Some (page n)) (level n) hc) (destinations o cur)
    /\ (level n = d \/ level n < d /\ hc = false).
Proof.
  rewrite get_split_nodes_selected. intros H.
  apply in_flat_map in H. destruct H as [x [Hx Hn]].
  apply selected_inv in Hn. destruct Hn as [Hp [Ht [Hl Hd]]].
  exists (occ_has_children x). rewrite Ht, Hl, <- Hp.
  destruct x; simpl in *. split; [exact Hx|exact Hd].
Qed.

(** C1: for a target depth [d >= 1], every boundary node the selector
    returns comes from a destination that sits at depth [d], or above it and
    without children; none lies deeper than [d]; and at depth [d] the result
    does not look at the children of a destination. *)
Theorem selector_depth_rule (o : list item) (d : Z) (Hd : 1 <= d) :
  (forall n, In n (get_split_nodes o 1 d) ->
     ~ level n > d
     /\ exists hc,
          In (mk_occ (title n) (Some (page n)) (level n) hc) (destinations o 1)
          /\ (level n = d \/ level n < d /\ hc = false))
  /\ (forall t p ch rest,
        get_split_nodes (Dest t p :: Sub ch :: rest) d d
        = append_node t p d ++ get_split_nodes rest d d)
  /\ (forall x, In x (destinations o 1) -> occ_depth x > d -> selected d x = []).
Proof.
  split; [|split].
  - intros n Hn. destruct (boundary_origin _ _ _ _ Hn) as [hc [Hin Hcase]].
    split; [lia|]. now exists hc.
  - intros t p ch rest. rewrite get_split_nodes_parent.
    now rewrite Z.eqb_refl.
  - intros x _ Hx. apply selected_deep. lia.
Qed.

Lemma selector_depth_rule_witness :
  let n := mk_node (lit "B") 10 1 in
  ~ level n > 2
  /\ exists hc,
       In (mk_occ (title n) (Some (page n)) (level n) hc)
          (destinations scenario_outline 1)
       /\ (level n = 2 \/ level n < 2 /\ hc = false).
Proof.
  apply (proj1 (selector_depth_rule scenario_outline 2 ltac:(lia))).
  vm_compute. tauto.
Defined.

(** ** Sorting by page *)

Lemma insert_by_page_In x l n : In n (insert_by_page x l) <-> n = x \/ In n l.
Proof.
  induction l as [|y l IH]; simpl.
  - intuition.
  - destruct (page x <=? page y); simpl; [intuition|].
    rewrite IH. intuition.
Qed.

Lemma sort_by_page_In l n : In n (sort_by_page l) <-> In n l.
Proof.
  induction l as [|x l IH]; simpl; [tauto|].
  rewrite insert_by_page_In, IH. intuition.
Qed.

Lemma insert_by_page_length x l :
  List.length (insert_by_page x l) = S (List.length l).
Proof.
  induction l as [|y l IH]; simpl; [reflexivity|].
  destruct (page x <=? page y); simpl; [reflexivity|now rewrite IH].
Qed.

Lemma sort_by_page_length l : List.length (sort_by_page l) = List.length l.
Proof.
  induction l as [|x l IH]; simpl; [reflexivity|].
  now rewrite insert_by_page_length, IH.
Qed.

Lemma insert_by_page_ascending x l :
  ascending l -> ascending (insert_by_page x l).
Proof.
  induction l as [|y l IH]; simpl; [tauto|].
  intros [Hy Hl]. destruct (page x <=? page y) eqn:E.
  - simpl. repeat split; [lia|exact Hy|exact Hl].
  - specialize (IH Hl). split; [|exact IH].
    destruct l as [|z l]; simpl in *; [lia|].
    destruct (page x <=? page z); lia.
Qed.

Lemma sort_by_page_ascending l : ascending (sort_by_page l).
Proof.
  induction l as [|x l IH]; simpl; [exact I|].
  now apply insert_by_page_ascending.
Qed.

(** The sort is stable: nodes of one page keep their traversal order. *)
Lemma insert_by_page_stable x l p :
  filter (fun n => page n =? p) (insert_by_page x l)
  = filter (fun n => page n =? p) (x :: l).
Proof.
  induction l as [|y l IH]; [reflexivity|].
  simpl insert_by_page. destruct (page x <=? page y) eqn:E; [reflexivity|].
  simpl in *. rewrite IH.
  destruct (page x =? p) eqn:E1, (page y =? p) eqn:E2; try reflexivity. lia.
Qed.

Lemma sort_by_page_stable l p :
  filter (fun n => page n =? p) (sort_by_page l)
  = filter (fun n => page n =? p) l.
Proof.
  induction l as [|x l IH]; [reflexivity|].
  simpl sort_by_page. rewrite insert_by_page_stable. simpl. now rewrite IH.
Qed.

Lemma ascending_head_least nd l :
  ascending (nd :: l) -> forall n, In n (nd :: l) -> page nd <= page n.
Proof.
  revert nd. induction l as [|b l IH]; intros nd H n Hn.
  - destruct Hn as [<-|[]]. lia.
  - destruct H as [Hab Hl]. destruct Hn as [<-|Hn]; [lia|].
    specialize (IH b Hl n Hn). lia.
Qed.

(** ** The loop of the plan builder *)

Lemma skipn_cons_inv {A} (l : list A) :
  forall i x r, skipn i l = x :: r -> skipn (S i) l = r.
Proof.
  induction l as [|a l IH]; intros i x r H.
  - destruct i; discriminate H.
  - destruct i as [|i]; simpl in *.
    + now inversion H.
    + exact (IH i x r H).
Qed.

Lemma nth_error_skipn_head {A} (l : list A) :
  forall i, nth_error l i = hd_error (skipn i l).
Proof.
  induction l as [|a l IH]; intros [|i]; simpl; try reflexivity. apply IH.
Qed.

Lemma plan_loop_from raw total prefix todo :
  forall i, skipn i raw = todo ->
    plan_loop raw total prefix i todo = plan_from total prefix i todo.
Proof.
  induction todo as [|nd todo' IH]; intros i H; [reflexivity|].
  pose proof (skipn_cons_inv raw i nd todo' H) as H'.
  simpl. rewrite (IH (S i) H').
  replace (i + 1)%nat with (S i) by lia.
  rewrite nth_error_skipn_head, H'.
  destruct (plan_from total prefix (S i) todo') as [plan printed].
  destruct todo' as [|nx todo'']; simpl; reflexivity.
Qed.

Lemma plan_loop_whole raw total prefix :
  plan_loop raw total prefix 0 raw = plan_from total prefix 0 raw.
Proof. now apply plan_loop_from. Qed.

Lemma plan_from_counts total prefix todo :
  forall i,
    (List.length (fst (plan_from total prefix i todo))
     + List.length (snd (plan_from total prefix i todo))
     = List.length todo)%nat.
Proof.
  induction todo as [|nd todo' IH]; intros i; [reflexivity|].
  simpl. specialize (IH (S i)).
  destruct (page nd >=? next_start total todo'); simpl; lia.
Qed.

(** Where an entry comes from: its node, the node's index, and its end. *)
Lemma plan_from_origin total prefix todo :
  forall i j e,
    nth_error (fst (plan_from total prefix i todo)) j = Some e ->
    exists k nd,
      (j <= k)%nat /\ nth_error todo k = Some nd
      /\ (List.length (fst (plan_from total prefix i todo))
          = List.length todo -> k = j)
      /\ e = mk_entry (title nd) (page nd)
               (next_start total (skipn (S k) todo))
               (make_filename prefix (i + k) (title nd))
      /\ page nd < next_start total (skipn (S k) todo).
Proof.
  induction todo as [|nd todo' IH]; intros i j e H.
  - destruct j; discriminate H.
  - simpl in H.
    pose proof (plan_from_counts total prefix todo' (S i)) as Hc.
    destruct (page nd >=? next_start total todo') eqn:E; simpl in H.
    + destruct (IH (S i) j e H) as [k [nd' [Hjk [Hk [_ [He Hlt]]]]]].
      exists (S k), nd'. simpl. rewrite E. simpl.
      repeat split; [lia|exact Hk|lia| |exact Hlt].
      rewrite He. do 2 f_equal. lia.
    + destruct j as [|j]; simpl in H.
      * injection H as <-. exists 0%nat, nd. simpl.
        repeat split; [lia| |lia].
        do 2 f_equal. lia.
      * destruct (IH (S i) j e H) as [k [nd' [Hjk [Hk [Heq [He Hlt]]]]]].
        exists (S k), nd'. simpl. rewrite E. simpl.
        repeat split; [lia|exact Hk|intros; f_equal; apply Heq; lia| |exact Hlt].
        rewrite He. do 2 f_equal. lia.
Qed.


(** What becomes of the node at index [k]: an entry, or a warning. *)
Lemma plan_from_fate total prefix todo :
  forall i k nd,
    nth_error todo k = Some nd ->
    let end_ := next_start total (skipn (S k) todo) in
    (page nd < end_ ->
     In (mk_entry (title nd) (page nd) end_
           (make_filename prefix (i + k) (title nd)))
        (fst (plan_from total prefix i todo)))
    /\ (page nd >= end_ ->
        In (warning_line (title nd) (page nd))
           (snd (plan_from total prefix i todo))).
Proof.
  induction todo as [|nd0 todo' IH]; intros i k nd H.
  - destruct k; discriminate H.
  - destruct k as [|k]; simpl in H.
    + injection H as <-. simpl.
      destruct (page nd0 >=? next_start total todo') eqn:E; simpl; split;
        intros; try lia; left; try reflexivity.
      do 2 f_equal. lia.
    + destruct (IH (S i) k nd H) as [H1 H2].
      replace (S i + k)%nat with (i + S k)%nat in H1 by lia.
      change (skipn (S (S k)) (nd0 :: todo')) with (skipn (S k) todo').
      simpl plan_from.
      destruct (page nd0 >=? next_start total todo'); simpl; split; intros;
        auto.
Qed.

(** On sorted boundaries within the page count, the plan tiles the pages
    from the first boundary to the end of the document. *)
Lemma plan_from_tiles total prefix todo :
  forall i nd todo',
    todo = nd :: todo' -> ascending todo ->
    (forall n, In n todo -> page n <= total) ->
    tiles (page nd) total (fst (plan_from total prefix i todo)).
Proof.
  induction todo as [|nd0 rest IH]; intros i nd todo' E Hs Hb; [discriminate|].
  injection E as -> ->. destruct Hs as [Hh Hs]. simpl plan_from.
  destruct todo' as [|nx todo''].
  - simpl. pose proof (Hb nd (or_introl eq_refl)).
    destruct (page nd >=? total) eqn:E; simpl; [lia|]. repeat split; lia.
  - assert (Hb' : forall n, In n (nx :: todo'') -> page n <= total)
      by (intros n Hn; apply Hb; now right).
    specialize (IH (S i) nx todo'' eq_refl Hs Hb').
    change (next_start total (nx :: todo'')) with (page nx).
    destruct (page nd >=? page nx) eqn:E.
    + replace (page nd) with (page nx) by lia. exact IH.
    + cbn [fst tiles start_page end_page]. repeat split; [lia|exact IH].
Qed.

(** ** Plans that tile *)

Lemma tiles_le lo hi plan : tiles lo hi plan -> lo <= hi.
Proof.
  revert lo. induction plan as [|e plan IH]; simpl; intros lo H; [lia|].
  destruct H as [_ [H1 H2]]. apply IH in H2. lia.
Qed.

Lemma tiles_bounds lo hi plan :
  tiles lo hi plan ->
  forall e, In e plan ->
    lo <= start_page e /\ start_page e < end_page e /\ end_page e <= hi.
Proof.
  revert lo. induction plan as [|e0 plan IH]; simpl; intros lo H e He;
    [destruct He|].
  destruct H as [H0 [H1 H2]]. destruct He as [<-|He].
  - apply tiles_le in H2. lia.
  - specialize (IH _ H2 e He). lia.
Qed.

Lemma tiles_cover lo hi plan :
  tiles lo hi plan ->
  forall q, (exists e, In e plan /\ in_range q e) <-> lo <= q < hi.
Proof.
  revert lo. induction plan as [|e0 plan IH]; simpl; intros lo H q.
  - split; [intros [e [[] _]]|lia].
  - destruct H as [H0 [H1 H2]]. pose proof (tiles_le _ _ _ H2) as Hle.
    specialize (IH _ H2 q). split.
    + intros [e [[<-|He] Hq]]; unfold in_range in *; [lia|].
      assert (end_page e0 <= q < hi) by (apply IH; now exists e). lia.
    + intros Hq. destruct (Z_lt_ge_dec q (end_page e0)) as [Hlt|Hge].
      * exists e0. unfold in_range. split; [now left|lia].
      * destruct (proj2 IH ltac:(lia)) as [e [He Hr]].
        exists e. split; [now right|exact Hr].
Qed.

Lemma tiles_ordered lo hi plan :
  tiles lo hi plan ->
  forall i j a b, (i < j)%nat ->
    nth_error plan i = Some a -> nth_error plan j = Some b ->
    end_page a <= start_page b.
Proof.
  revert lo. induction plan as [|e0 plan IH]; intros lo H i j a b Hij Ha Hb.
  - destruct i; discriminate Ha.
  - destruct H as [H0 [H1 H2]]. destruct j as [|j]; [lia|].
    simpl in Hb. destruct i as [|i]; simpl in Ha.
    + injection Ha as <-. apply nth_error_In in Hb.
      pose proof (tiles_bounds _ _ _ H2 b Hb). lia.
    + apply (IH _ H2 i j a b); [lia|exact Ha|exact Hb].
Qed.

(** ** [generate_split_plan] and [main] *)

Lemma sort_by_page_nil l : sort_by_page l = [] -> l = [].
Proof.
  intros H. apply (f_equal (@List.length node)) in H.
  rewrite sort_by_page_length in H. now apply length_zero_iff_nil.
Qed.

Lemma generate_split_plan_opened r name layer prefix :
  get_split_nodes (outline r) 1 layer <> [] ->
  generate_split_plan (Opened r) name layer prefix
  = plan_from (Z.of_nat (num_pages r)) (resolve_prefix name prefix) 0
      (sort_by_page (get_split_nodes (outline r) 1 layer)).
Proof.
  intros H. unfold generate_split_plan.
  destruct (outline r) as [|x o] eqn:Eo; [now destruct H|].
  destruct (get_split_nodes (x :: o) 1 layer) as [|n ns] eqn:E;
    [now destruct H|].
  apply plan_loop_whole.
Qed.

Lemma generate_split_plan_nothing r name layer prefix :
  get_split_nodes (outline r) 1 layer = [] ->
  generate_split_plan (Opened r) name layer prefix
  = ([], [if match outline r with [] => true | _ => false end
          then lit "PDF has no outline."
          else lit "No matching outline items found."]).
Proof.
  intros H. unfold generate_split_plan.
  destruct (outline r) as [|x o] eqn:Eo; [reflexivity|]. now rewrite H.
Qed.

Lemma generate_split_plan_entries r name layer prefix :
  fst (generate_split_plan (Opened r) name layer prefix)
  = fst (plan_from (Z.of_nat (num_pages r)) (resolve_prefix name prefix) 0
           (sort_by_page (get_split_nodes (outline r) 1 layer))).
Proof.
  destruct (get_split_nodes (outline r) 1 layer) as [|n ns] eqn:E.
  - now rewrite generate_split_plan_nothing.
  - rewrite generate_split_plan_opened by (rewrite E; discriminate).
    now rewrite E.
Qed.


Lemma next_start_at total (raw : list node) k b :
  nth_error raw k = Some b -> next_start total (skipn k raw) = page b.
Proof.
  rewrite nth_error_skipn_head. destruct (skipn k raw); simpl; [discriminate|].
  now intros [= ->].
Qed.

(** The plan tiles the pages from the least boundary page on. *)
Lemma plan_tiles_from_least r name layer prefix nd raw' :
  sort_by_page (get_split_nodes (outline r) 1 layer) = nd :: raw' ->
  (forall n, In n (get_split_nodes (outline r) 1 layer) ->
     page n <= Z.of_nat (num_pages r)) ->
  tiles (page nd) (Z.of_nat (num_pages r))
    (fst (generate_split_plan (Opened r) name layer prefix))
  /\ In nd (get_split_nodes (outline r) 1 layer)
  /\ (forall n, In n (get_split_nodes (outline r) 1 layer) ->
        page nd <= page n).
Proof.
  intros E Hb. rewrite generate_split_plan_entries.
  pose proof (sort_by_page_ascending (get_split_nodes (outline r) 1 layer))
    as Hs.
  split; [|split].
  - apply (plan_from_tiles _ _ _ 0%nat nd raw' E Hs).
    intros n Hn. apply Hb. now apply sort_by_page_In.
  - apply sort_by_page_In. rewrite E. now left.
  - intros n Hn. rewrite E in Hs. apply (ascending_head_least _ _ Hs).
    rewrite <- E. now apply sort_by_page_In.
Qed.

(** C2: when no boundary page exceeds the page count, the entries of the
    plan are in increasing page order and pairwise disjoint, each lies
    within the document, and together they cover exactly the pages from the
    least start page, which is the least boundary page, to the page count. *)
Theorem plan_partitions (r : PdfReader) (name : pystr) (layer : Z)
  (prefix : option pystr) :
  let plan := fst (generate_split_plan (Opened r) name layer prefix) in
  let total := Z.of_nat (num_pages r) in
  (forall n, In n (get_split_nodes (outline r) 1 layer) -> page n <= total) ->
  (forall i j a b, (i < j)%nat ->
     nth_error plan i = Some a -> nth_error plan j = Some b ->
     end_page a <= start_page b /\ start_page a < start_page b
     /\ forall q, ~ (in_range q a /\ in_range q b))
  /\ (forall e, In e plan -> start_page e < end_page e <= total)
  /\ (forall e0 rest, plan = e0 :: rest ->
        (forall e, In e plan -> start_page e0 <= start_page e)
        /\ (exists n, In n (get_split_nodes (outline r) 1 layer)
                      /\ page n = start_page e0)
        /\ (forall n, In n (get_split_nodes (outline r) 1 layer) ->
              start_page e0 <= page n)
        /\ forall q,
             (exists e, In e plan /\ in_range q e) <-> start_page e0 <= q < total).
Proof.
  intros plan total Hb.
  destruct (sort_by_page (get_split_nodes (outline r) 1 layer))
    as [|nd raw'] eqn:E.
  - assert (Hp : plan = []).
    { unfold plan. rewrite generate_split_plan_entries, E. reflexivity. }
    rewrite Hp. split; [|split].
    + intros i j a b _ Ha. destruct i; discriminate Ha.
    + intros e [].
    + intros e0 rest Hn. discriminate Hn.
  - destruct (plan_tiles_from_least r name layer prefix nd raw' E Hb)
      as [Ht [Hnd Hleast]].
    fold plan total in Ht. split; [|split].
    + intros i j a b Hij Ha Hb'.
      pose proof (tiles_ordered _ _ _ Ht i j a b Hij Ha Hb') as Hord.
      pose proof (tiles_bounds _ _ _ Ht a (nth_error_In _ _ Ha)) as Ba.
      pose proof (tiles_bounds _ _ _ Ht b (nth_error_In _ _ Hb')) as Bb.
      split; [exact Hord|]. split; [lia|].
      unfold in_range. intros q [Hqa Hqb]. lia.
    + intros e He. pose proof (tiles_bounds _ _ _ Ht e He). lia.
    + intros e0 rest Hp. rewrite Hp in Ht.
      assert (H0 : start_page e0 = page nd) by (destruct Ht as [H0 _]; exact H0).
      rewrite <- Hp in Ht. rewrite H0. split; [|split; [|split]].
      * intros e He. pose proof (tiles_bounds _ _ _ Ht e He). lia.
      * now exists nd.
      * exact Hleast.
      * apply (tiles_cover _ _ _ Ht).
Qed.

Lemma plan_partitions_witness :
  (exists e,
     In e (fst (generate_split_plan (Opened scenario_reader) (lit "doc") 2 None))
     /\ in_range 7 e)
  <-> 0 <= 7 < 15.
Proof.
  assert (Hb : forall n, In n (get_split_nodes (outline scenario_reader) 1 2) ->
                 page n <= Z.of_nat (num_pages scenario_reader)).
  { intros n Hn. vm_compute in Hn.
    destruct Hn as [<-|[<-|[<-|[]]]]; vm_compute; discriminate. }
  destruct (plan_partitions scenario_reader (lit "doc") 2 None Hb)
    as [_ [_ H]].
  exact (proj2 (proj2 (proj2
    (H (mk_entry (lit "A1") 0 5 (lit "doc_01_A1.pdf"))
       [mk_entry (lit "A2") 5 10 (lit "doc_02_A2.pdf");
        mk_entry (lit "B") 10 15 (lit "doc_03_B.pdf")]
       eq_refl))) 7).
Defined.


(** The bound on [end_page] rests on the pages the reader resolves: the
    builder itself does not compare a page with the page count.  Handed
    boundaries on pages 3 and 20 for ten pages it gives the entry from 3 to
    20. *)
Lemma builder_does_not_compare_pages :
  main (Opened overshoot_reader) (lit "doc") 1 None
  = (Continue [mk_entry (lit "X") 3 20 (lit "doc_01_X.pdf")],
     [lit "Analyzing PDF outline at layer 1...";
      warning_line (lit "Y") 20;
      lit "Found 1 sections.";
      lit "  - doc_01_X.pdf: Pages 3 to 20"]).
Proof. reflexivity. Qed.

(** C5, as the code has it: the number in a file name is the 1-based index
    of the entry's boundary in the page-sorted boundary list, so a skipped
    boundary uses up its number; the number is at least the entry's position
    in the plan, and equal to it when no boundary was skipped. *)
Theorem filename_numbering (r : PdfReader) (name : pystr) (layer : Z)
  (prefix : option pystr) (j : nat) (e : entry) :
  let plan := fst (generate_split_plan (Opened r) name layer prefix) in
  let raw_nodes := sort_by_page (get_split_nodes (outline r) 1 layer) in
  nth_error plan j = Some e ->
  exists i nd,
    nth_error raw_nodes i = Some nd
    /\ entry_title e = title nd
    /\ start_page e = page nd
    /\ filename e
       = resolve_prefix name prefix ++ lit "_" ++ format_02d (i + 1)
         ++ lit "_" ++ sanitize_filename (title nd) ++ lit ".pdf"
    /\ (j <= i)%nat
    /\ (List.length plan = List.length raw_nodes -> i = j).
Proof.
  intros plan raw_nodes. unfold plan.
  rewrite generate_split_plan_entries. fold raw_nodes. intros Hj.
  apply plan_from_origin in Hj.
  destruct Hj as [k [nd [Hjk [Hk [Heq [-> _]]]]]].
  exists k, nd. cbn [entry_title start_page filename].
  repeat split; [exact Hk|exact Hjk|exact Heq].
Qed.

Lemma filename_numbering_witness :
  exists i nd,
    nth_error (sort_by_page (get_split_nodes (outline tie_reader) 1 1)) i
    = Some nd
    /\ lit "Y" = title nd
    /\ 3 = page nd
    /\ lit "doc_02_Y.pdf"
       = resolve_prefix (lit "doc") None ++ lit "_" ++ format_02d (i + 1)
         ++ lit "_" ++ sanitize_filename (title nd) ++ lit ".pdf"
    /\ (0 <= i)%nat
    /\ (List.length
          (fst (generate_split_plan (Opened tie_reader) (lit "doc") 1 None))
        = List.length
            (sort_by_page (get_split_nodes (outline tie_reader) 1 1)) ->
        i = 0%nat).
Proof.
  apply (filename_numbering tie_reader (lit "doc") 1 None 0
           (mk_entry (lit "Y") 3 10 (lit "doc_02_Y.pdf"))).
  reflexivity.
Defined.

(** C5, as stated, fails: with two boundaries on page 3 the only entry of
    the plan is the first among the emitted entries, and its file name
    carries the number 02. *)
Lemma skipped_entry_consumes_number :
  fst (generate_split_plan (Opened tie_reader) (lit "doc") 1 None)
  = [mk_entry (lit "Y") 3 10 (lit "doc_02_Y.pdf")]
  /\ lit "doc_02_Y.pdf" <> make_filename (lit "doc") 0 (lit "Y").
Proof. split; [reflexivity|discriminate]. Qed.

(** C6, as the code has it: a boundary whose section is empty is skipped
    with a warning and the loop goes on: every boundary of the page-sorted
    list gives an entry when its section is not empty, and only then, and a
    warning otherwise, one of the two for each boundary, and every entry
    stems from a boundary with a section that is not empty.  Of two
    neighbours on one page the first is skipped; the second is kept exactly
    when its own section is not empty (the boundary after it lies on a later
    page, or it is the last boundary and lies below the page count) and is
    skipped as well otherwise.  The sort keeps nodes of one page in
    traversal order, and when no boundary page exceeds the page count the
    plan covers the pages from the least boundary page to the page count. *)
Theorem degenerate_sections_skipped (r : PdfReader) (name : pystr)
  (layer : Z) (prefix : option pystr) :
  let result := generate_split_plan (Opened r) name layer prefix in
  let raw_nodes := sort_by_page (get_split_nodes (outline r) 1 layer) in
  let total := Z.of_nat (num_pages r) in
  let prefix' := resolve_prefix name prefix in
  let section_end k := next_start total (skipn (S k) raw_nodes) in
  let entry_of k nd :=
    mk_entry (title nd) (page nd) (section_end k)
      (make_filename prefix' k (title nd)) in
  get_split_nodes (outline r) 1 layer <> [] ->
  (forall k nd, nth_error raw_nodes k = Some nd ->
     (page nd < section_end k <-> In (entry_of k nd) (fst result))
     /\ (page nd >= section_end k ->
         In (warning_line (title nd) (page nd)) (snd result)))
  /\ (forall e, In e (fst result) ->
        exists k nd,
          nth_error raw_nodes k = Some nd /\ e = entry_of k nd
          /\ page nd < section_end k)
  /\ (List.length (fst result) + List.length (snd result)
      = List.length raw_nodes)%nat
  /\ (forall k a b,
        nth_error raw_nodes k = Some a -> nth_error raw_nodes (S k) = Some b ->
        page a = page b ->
        In (warning_line (title a) (page a)) (snd result)
        /\ ~ In (entry_of k a) (fst result)
        /\ (page b < section_end (S k) <-> In (entry_of (S k) b) (fst result))
        /\ (page b >= section_end (S k) ->
            In (warning_line (title b) (page b)) (snd result)))
  /\ (forall p,
        filter (fun n => page n =? p) raw_nodes
        = filter (fun n => page n =? p) (get_split_nodes (outline r) 1 layer))
  /\ ((forall n, In n (get_split_nodes (outline r) 1 layer) ->
         page n <= total) ->
      exists first,
        In first (get_split_nodes (outline r) 1 layer)
        /\ (forall n, In n (get_split_nodes (outline r) 1 layer) ->
              page first <= page n)
        /\ forall q,
             (exists e, In e (fst result) /\ in_range q e)
             <-> page first <= q < total).
Proof.
  intros result raw_nodes total prefix' section_end entry_of Hne.
  assert (Hr : result = plan_from total prefix' 0 raw_nodes)
    by (apply generate_split_plan_opened; exact Hne).
  assert (Horigin : forall e, In e (fst result) ->
        exists k nd,
          nth_error raw_nodes k = Some nd /\ e = entry_of k nd
          /\ page nd < section_end k).
  { intros e He. rewrite Hr in He. apply In_nth_error in He.
    destruct He as [j Hj]. apply plan_from_origin in Hj.
    destruct Hj as [k [nd [_ [Hk [_ [He Hlt]]]]]].
    exists k, nd. split; [exact Hk|]. split; [exact He|exact Hlt]. }
  assert (Hfate : forall k nd, nth_error raw_nodes k = Some nd ->
     (page nd < section_end k <-> In (entry_of k nd) (fst result))
     /\ (page nd >= section_end k ->
         In (warning_line (title nd) (page nd)) (snd result))).
  { intros k nd Hk.
    destruct (plan_from_fate total prefix' raw_nodes 0 k nd Hk) as [F1 F2].
    rewrite Hr. split; [split; [exact F1|]|exact F2].
    intros Hin. rewrite <- Hr in Hin.
    destruct (Horigin _ Hin) as [k' [nd' [_ [He Hlt]]]].
    assert (Hs : start_page (entry_of k nd) < end_page (entry_of k nd))
      by (rewrite He; exact Hlt).
    exact Hs. }
  split; [exact Hfate|]. split; [exact Horigin|].
  split; [|split; [|split]].
  - rewrite Hr. apply plan_from_counts.
  - intros k a b Ha Hb Hab.
    assert (Hend : section_end k = page b)
      by (unfold section_end; apply (next_start_at total raw_nodes (S k) b Hb)).
    destruct (Hfate k a Ha) as [[_ Fa1] Fa2].
    destruct (Hfate (S k) b Hb) as [Fb1 Fb2].
    split; [apply Fa2; lia|]. split; [intros Hin; apply Fa1 in Hin; lia|].
    split; [exact Fb1|exact Fb2].
  - intros p. apply sort_by_page_stable.
  - intros Hb.
    destruct raw_nodes as [|nd raw'] eqn:E.
    + apply sort_by_page_nil in E. contradiction.
    + destruct (plan_tiles_from_least r name layer prefix nd raw' E Hb)
        as [Ht [Hnd Hleast]].
      exists nd. split; [exact Hnd|]. split; [exact Hleast|].
      apply (tiles_cover _ _ _ Ht).
Qed.

Lemma degenerate_sections_skipped_witness :
  In (warning_line (lit "X") 3)
     (snd (generate_split_plan (Opened tie_reader) (lit "doc") 1 None))
  /\ In (mk_entry (lit "Y") 3 10 (lit "doc_02_Y.pdf"))
        (fst (generate_split_plan (Opened tie_reader) (lit "doc") 1 None)).
Proof.
  pose proof (degenerate_sections_skipped tie_reader (lit "doc") 1 None
                ltac:(vm_compute; discriminate)) as H.
  destruct H as [_ [_ [_ [H _]]]].
  destruct (H 0%nat (mk_node (lit "X") 3 1) (mk_node (lit "Y") 3 1)
              eq_refl eq_refl eq_refl) as [H1 [_ [H2 _]]].
  split; [exact H1|]. apply H2. vm_compute. reflexivity.
Defined.

(** Three boundaries on one page: the first two are skipped and the third
    starts the section. *)
Lemma run_of_three_ties :
  generate_split_plan
    (Opened (mk_reader [Dest (lit "X") (Some 3); Dest (lit "Y") (Some 3);
                        Dest (lit "Z") (Some 3); Dest (lit "W") (Some 7)] 10))
    (lit "doc") 1 None
  = ([mk_entry (lit "Z") 3 7 (lit "doc_03_Z.pdf");
      mk_entry (lit "W") 7 10 (lit "doc_04_W.pdf")],
     [warning_line (lit "X") 3; warning_line (lit "Y") 3]).
Proof. reflexivity. Qed.

(** C6, as stated, fails: of two boundaries on page 3, in this order in
    the outline, the first is the one skipped with a warning and the second
    is the one kept. *)
Lemma second_of_tie_is_kept :
  get_split_nodes (outline tie_reader) 1 1
  = [mk_node (lit "X") 3 1; mk_node (lit "Y") 3 1]
  /\ generate_split_plan (Opened tie_reader) (lit "doc") 1 None
     = ([mk_entry (lit "Y") 3 10 (lit "doc_02_Y.pdf")],
        [lit "Warning: Section 'X' starts and ends on same page (3). Skipping or merging."])
  /\ ~ (forall e,
          In e (fst (generate_split_plan (Opened tie_reader) (lit "doc") 1 None)) ->
          entry_title e <> lit "Y").
Proof.
  split; [reflexivity|]. split; [reflexivity|].
  intros H.
  exact (H (mk_entry (lit "Y") 3 10 (lit "doc_02_Y.pdf"))
           (or_introl eq_refl) eq_refl).
Qed.

(** ** Unresolved destinations *)

Lemma selected_unresolved d x : occ_page x = None -> selected d x = [].
Proof.
  unfold selected. intros ->. simpl.
  now destruct ((occ_depth x =? d)
                || (occ_depth x <? d) && negb (occ_has_children x)).
Qed.

Lemma plan_entry_boundary r name layer prefix e :
  In e (fst (generate_split_plan (Opened r) name layer prefix)) ->
  exists n, In n (get_split_nodes (outline r) 1 layer)
            /\ entry_title e = title n /\ start_page e = page n.
Proof.
  rewrite generate_split_plan_entries. intros He.
  apply In_nth_error in He. destruct He as [j Hj].
  apply plan_from_origin in Hj. destruct Hj as [k [nd [_ [Hk [_ [-> _]]]]]].
  exists nd. cbn [entry_title start_page]. split; [|split; reflexivity].
  apply nth_error_In in Hk. exact (proj1 (sort_by_page_In _ _) Hk).
Qed.

(** C3, as the code has it: a destination that does not resolve gives no
    boundary node of its own, so every boundary node, and every entry of the
    plan, stems from a resolved destination; its children are treated like
    those of any other destination: walked when it sits above the target
    depth, left out at the target depth. *)
Theorem unresolved_destination_gives_no_boundary (r : PdfReader)
  (name : pystr) (layer : Z) (prefix : option pystr) :
  (forall n, In n (get_split_nodes (outline r) 1 layer) ->
     exists hc,
       In (mk_occ (title n) (Some (page n)) (level n) hc)
          (destinations (outline r) 1))
  /\ (forall x, occ_page x = None -> selected layer x = [])
  /\ (forall e, In e (fst (generate_split_plan (Opened r) name layer prefix)) ->
        exists n hc,
          In (mk_occ (title n) (Some (page n)) (level n) hc)
             (destinations (outline r) 1)
          /\ entry_title e = title n /\ start_page e = page n)
  /\ (forall t rest cur,
        no_list_ahead rest ->
        get_split_nodes (Dest t None :: rest) cur layer
        = get_split_nodes rest cur layer)
  /\ (forall t ch rest cur,
        cur < layer ->
        get_split_nodes (Dest t None :: Sub ch :: rest) cur layer
        = get_split_nodes ch (cur + 1) layer ++ get_split_nodes rest cur layer)
  /\ (forall t ch rest cur,
        layer <= cur ->
        get_split_nodes (Dest t None :: Sub ch :: rest) cur layer
        = get_split_nodes rest cur layer).
Proof.
  split; [|split; [|split; [|split; [|split]]]].
  - intros n Hn. destruct (boundary_origin _ _ _ _ Hn) as [hc [H _]].
    now exists hc.
  - intros x. apply selected_unresolved.
  - intros e He. destruct (plan_entry_boundary _ _ _ _ _ He) as [n [Hn Heq]].
    destruct (boundary_origin _ _ _ _ Hn) as [hc [H _]]. now exists n, hc.
  - intros t rest cur Hn. rewrite get_split_nodes_leaf by exact Hn.
    now destruct ((cur =? layer) || (cur <? layer)).
  - intros t ch rest cur H. rewrite get_split_nodes_parent.
    destruct (cur =? layer) eqn:E1; [lia|].
    destruct (cur <? layer) eqn:E2; [reflexivity|lia].
  - intros t ch rest cur H. rewrite get_split_nodes_parent.
    destruct (cur =? layer) eqn:E1; [reflexivity|].
    destruct (cur <? layer) eqn:E2; [lia|reflexivity].
Qed.

Lemma unresolved_destination_gives_no_boundary_witness :
  exists hc,
    In (mk_occ (lit "A1") (Some 0) 2 hc) (destinations orphaned_outline 1).
Proof.
  apply (proj1 (unresolved_destination_gives_no_boundary orphaned_reader
                  (lit "doc") 2 None) (mk_node (lit "A1") 0 2)).
  vm_compute. tauto.
Defined.

(** C3, as stated, fails: below the unresolved destination A sits A1, and
    with target depth 2 the selector returns A1 and the plan has its
    entry. *)
Lemma child_of_unresolved_is_selected :
  destinations orphaned_outline 1
  = [mk_occ (lit "A") None 1 true; mk_occ (lit "A1") (Some 0) 2 false]
  /\ get_split_nodes orphaned_outline 1 2 = [mk_node (lit "A1") 0 2]
  /\ fst (generate_split_plan (Opened orphaned_reader) (lit "doc") 2 None)
     = [mk_entry (lit "A1") 0 5 (lit "doc_01_A1.pdf")]
  /\ ~ (forall n, In n (get_split_nodes orphaned_outline 1 2) ->
          title n <> lit "A1").
Proof.
  split; [reflexivity|]. split; [reflexivity|]. split; [reflexivity|].
  intros H. exact (H (mk_node (lit "A1") 0 2) (or_introl eq_refl) eq_refl).
Qed.

(** ** The scenarios *)

(** C7: scenarios A and B.  With target depth 2 and 15 pages the boundaries
    are A1 on page 0, A2 on page 5 and B on page 10 (B at depth 1) and the
    ranges are [0,5), [5,10), [10,15); with target depth 1 the boundaries
    are A on page 0 and B on page 10 and the ranges are [0,10), [10,15). *)
Theorem scenarios_A_and_B (name : pystr) (prefix : option pystr) :
  get_split_nodes scenario_outline 1 2
  = [mk_node (lit "A1") 0 2; mk_node (lit "A2") 5 2; mk_node (lit "B") 10 1]
  /\ map range_of
       (fst (generate_split_plan (Opened scenario_reader) name 2 prefix))
     = [(0, 5); (5, 10); (10, 15)]
  /\ map entry_title
       (fst (generate_split_plan (Opened scenario_reader) name 2 prefix))
     = [lit "A1"; lit "A2"; lit "B"]
  /\ get_split_nodes scenario_outline 1 1
     = [mk_node (lit "A") 0 1; mk_node (lit "B") 10 1]
  /\ map range_of
       (fst (generate_split_plan (Opened scenario_reader) name 1 prefix))
     = [(0, 10); (10, 15)]
  /\ map entry_title
       (fst (generate_split_plan (Opened scenario_reader) name 1 prefix))
     = [lit "A"; lit "B"]
  /\ snd (generate_split_plan (Opened scenario_reader) name 2 prefix) = []
  /\ snd (generate_split_plan (Opened scenario_reader) name 1 prefix) = [].
Proof. repeat split; reflexivity. Qed.

(** ** Empty selections and empty plans *)

Lemma main_exits_on_empty_plan opened name layer prefix :
  fst (generate_split_plan opened name layer prefix) = [] ->
  main opened name layer prefix
  = (SysExit 1,
     (lit "Analyzing PDF outline at layer " ++ str_of_Z layer ++ lit "...")
     :: snd (generate_split_plan opened name layer prefix)
     ++ [lit "Could not generate a valid split plan."]).
Proof.
  unfold main.
  destruct (generate_split_plan opened name layer prefix) as [plan printed].
  simpl. now intros ->.
Qed.

Lemma main_continues_with_plan opened name layer prefix plan :
  fst (main opened name layer prefix) = Continue plan ->
  plan = fst (generate_split_plan opened name layer prefix) /\ plan <> [].
Proof.
  unfold main.
  destruct (generate_split_plan opened name layer prefix) as [[|e p] printed];
    simpl; [discriminate|].
  intros [= <-]. split; [reflexivity|discriminate].
Qed.

(** C9: an empty outline gives an empty boundary list, and so does an
    outline none of whose destinations resolves; [generate_split_plan] then
    returns an empty plan together with a printed message; and whenever the
    plan is empty, whatever the reason, [main] prints that no valid plan
    could be generated and exits with code 1, so it never goes on with an
    empty plan. *)
Theorem empty_results_are_reported :
  (forall cur d, get_split_nodes [] cur d = [])
  /\ (forall o d, all_unresolved o -> get_split_nodes o 1 d = [])
  /\ (forall r name layer prefix,
        get_split_nodes (outline r) 1 layer = [] ->
        exists msg,
          generate_split_plan (Opened r) name layer prefix = ([], [msg]))
  /\ (forall opened name layer prefix,
        fst (generate_split_plan opened name layer prefix) = [] ->
        fst (main opened name layer prefix) = SysExit 1
        /\ In (lit "Could not generate a valid split plan.")
              (snd (main opened name layer prefix)))
  /\ (forall opened name layer prefix plan,
        fst (main opened name layer prefix) = Continue plan -> plan <> []).
Proof.
  split; [reflexivity|]. split; [|split; [|split]].
  - intros o d H. rewrite get_split_nodes_selected.
    apply flat_map_nothing. intros x Hx. apply selected_unresolved.
    now apply H.
  - intros r name layer prefix H. eexists.
    now apply generate_split_plan_nothing.
  - intros opened name layer prefix H.
    rewrite (main_exits_on_empty_plan _ _ _ _ H). simpl.
    split; [reflexivity|]. right. apply in_or_app. right. now left.
  - intros opened name layer prefix plan H.
    now apply main_continues_with_plan in H.
Qed.

Lemma empty_results_are_reported_witness :
  get_split_nodes [Dest (lit "A") None; Sub [Dest (lit "A1") None]] 1 2 = []
  /\ fst (main (Opened tie_reader) (lit "doc") 0 None) = SysExit 1.
Proof.
  destruct empty_results_are_reported as [_ [H1 [_ [H2 _]]]]. split.
  - apply H1. intros x Hx. vm_compute in Hx.
    destruct Hx as [<-|[<-|[]]]; reflexivity.
  - apply (H2 (Opened tie_reader) (lit "doc") 0 None). reflexivity.
Defined.

(** ** Entries and the pages of the document *)





(** * Further properties of the code *)

(** ** Splitting and joining on the underscore *)

Lemma split_on_nonempty sep s : split_on sep s <> [].
Proof.
  destruct s as [|c s]; simpl; [discriminate|].
  destruct (c =? sep)%N; [discriminate|].
  destruct (split_on sep s); discriminate.
Qed.

Lemma join_cons sep w ws :
  ws <> [] -> join sep (w :: ws) = w ++ sep ++ join sep ws.
Proof. destruct ws; [now intros []|reflexivity]. Qed.

Lemma join_split_on_underscore s :
  join [underscore] (split_on underscore s) = s.
Proof.
  induction s as [|c s IH]; [reflexivity|]. simpl split_on.
  destruct (c =? underscore)%N eqn:E.
  - apply N.eqb_eq in E. subst c.
    rewrite join_cons by apply split_on_nonempty. simpl. now rewrite IH.
  - pose proof (split_on_nonempty underscore s) as Hne.
    destruct (split_on underscore s) as [|w ws]; [now destruct Hne|].
    destruct ws as [|w' ws].
    + simpl in *. now rewrite IH.
    + rewrite join_cons by discriminate.
      rewrite join_cons in IH by discriminate.
      simpl. now rewrite <- IH.
Qed.

Lemma split_on_words_free sep s :
  Forall (fun w => ~ In sep w) (split_on sep s).
Proof.
  induction s as [|c s IH]; simpl.
  - constructor; [easy|constructor].
  - destruct (c =? sep)%N eqn:E.
    + constructor; [easy|exact IH].
    + apply N.eqb_neq in E.
      destruct (split_on sep s) as [|w ws]; [constructor; [|constructor]|].
      * intros [H|[]]. now apply E.
      * inversion IH as [|? ? Hw Hws]; subst. constructor; [|exact Hws].
        intros [H|H]; [now apply E|now apply Hw].
Qed.

Lemma split_on_app sep w r :
  ~ In sep w -> split_on sep (w ++ sep :: r) = w :: split_on sep r.
Proof.
  induction w as [|c w IH]; intros H; simpl.
  - now rewrite N.eqb_refl.
  - destruct (c =? sep)%N eqn:E.
    + apply N.eqb_eq in E. destruct H. now left.
    + rewrite IH; [reflexivity|]. intros Hin. apply H. now right.
Qed.

Lemma split_on_free sep w : ~ In sep w -> split_on sep w = [w].
Proof.
  induction w as [|c w IH]; intros H; simpl; [reflexivity|].
  destruct (c =? sep)%N eqn:E.
  - apply N.eqb_eq in E. destruct H. now left.
  - rewrite IH; [reflexivity|]. intros Hin. apply H. now right.
Qed.

Lemma split_on_join sep ws :
  ws <> [] -> Forall (fun w => ~ In sep w) ws ->
  split_on sep (join [sep] ws) = ws.
Proof.
  induction ws as [|w ws IH]; intros Hne Hf; [now destruct Hne|].
  inversion Hf as [|? ? Hw Hws]; subst.
  destruct ws as [|w' ws].
  - simpl. now apply split_on_free.
  - rewrite join_cons by discriminate. simpl app.
    rewrite split_on_app by exact Hw. f_equal. apply IH; [discriminate|exact Hws].
Qed.

Lemma join_firstn_prefix sep ws :
  forall k, exists rest, join sep ws = join sep (firstn k ws) ++ rest.
Proof.
  induction ws as [|w ws IH]; intros k.
  - exists []. now rewrite firstn_nil.
  - destruct k as [|k]; [now exists (join sep (w :: ws))|].
    destruct ws as [|w' ws].
    + exists []. destruct k; simpl; now rewrite app_nil_r.
    + destruct (IH k) as [rest Hrest].
      rewrite join_cons by discriminate.
      destruct k as [|k].
      * exists (sep ++ join sep (w' :: ws)). reflexivity.
      * change (firstn (S (S k)) (w :: w' :: ws))
          with (w :: firstn (S k) (w' :: ws)).
        rewrite (join_cons sep w (firstn (S k) (w' :: ws)))
          by (cbn [firstn]; intros Hd; discriminate Hd).
        exists rest. rewrite Hrest. now rewrite <- !app_assoc.
Qed.

Lemma default_prefix_words name :
  default_prefix name
  = join [underscore]
      (firstn 10 (split_on underscore (sanitize_filename name))).
Proof.
  unfold default_prefix. change (lit "_") with [underscore].
  destruct (10 <? List.length
                    (split_on underscore (sanitize_filename name)))%nat eqn:E;
    [reflexivity|].
  apply Nat.ltb_ge in E. now rewrite firstn_all2.
Qed.

(** X1: the prefix derived from the file name consists of the first ten
    words of the sanitised name: it has at most ten words, it is an initial
    part of the sanitised name, and it is the whole sanitised name when that
    has at most ten words. *)
Theorem default_prefix_at_most_ten_words (name : pystr) :
  let words := split_on underscore (sanitize_filename name) in
  split_on underscore (default_prefix name) = firstn 10 words
  /\ (List.length (split_on underscore (default_prefix name)) <= 10)%nat
  /\ (exists rest, sanitize_filename name = default_prefix name ++ rest)
  /\ ((List.length words <= 10)%nat ->
      default_prefix name = sanitize_filename name).
Proof.
  intros words. rewrite default_prefix_words. fold words.
  assert (H1 : split_on underscore (join [underscore] (firstn 10 words))
               = firstn 10 words).
  { apply split_on_join.
    - pose proof (split_on_nonempty underscore (sanitize_filename name)) as H.
      fold words in H. destruct words; [now destruct H|discriminate].
    - apply Forall_forall. intros w Hw.
      pose proof (split_on_words_free underscore (sanitize_filename name)) as H.
      fold words in H. rewrite Forall_forall in H. apply H.
      rewrite <- (firstn_skipn 10 words). apply in_or_app. now left. }
  split; [exact H1|]. split; [rewrite H1; apply firstn_le_length|]. split.
  - destruct (join_firstn_prefix [underscore] words 10) as [rest Hrest].
    exists rest. rewrite <- Hrest. unfold words.
    now rewrite join_split_on_underscore.
  - intros Hlen. rewrite firstn_all2 by exact Hlen. unfold words.
    apply join_split_on_underscore.
Qed.

Lemma default_prefix_at_most_ten_words_witness :
  default_prefix (lit "my report: v2") = sanitize_filename (lit "my report: v2").
Proof.
  apply (default_prefix_at_most_ten_words (lit "my report: v2")).
  vm_compute. lia.
Defined.

(** ** Numbers in file names *)

Lemma lit_inj s s' : lit s = lit s' -> s = s'.
Proof.
  unfold lit. intros H.
  rewrite <- (string_of_list_ascii_of_string s),
          <- (string_of_list_ascii_of_string s').
  f_equal. revert H.
  generalize (list_ascii_of_string s) (list_ascii_of_string s').
  induction l as [|a l IH]; intros [|b l'] H; try discriminate; [reflexivity|].
  simpl in H. injection H as Hab Hl. f_equal; [|now apply IH].
  rewrite <- (ascii_N_embedding a), <- (ascii_N_embedding b). now f_equal.
Qed.

Lemma to_uint_normal n : Decimal.unorm (Nat.to_uint n) = Nat.to_uint n.
Proof.
  rewrite <- (DecimalNat.Unsigned.of_to n) at 2. symmetry. apply DecimalNat.Unsigned.to_of.
Qed.

Lemma to_uint_nonnil n : Nat.to_uint n <> Decimal.Nil.
Proof. rewrite <- to_uint_normal. apply DecimalFacts.unorm_nonnil. Qed.

Lemma decimal_of_nat n :
  NilZero.string_of_uint (Nat.to_uint n)
  = NilEmpty.string_of_uint (Nat.to_uint n).
Proof.
  pose proof (to_uint_nonnil n). now destruct (Nat.to_uint n).
Qed.

Lemma decimal_digits d :
  Forall (fun c => is_digit c = true) (lit (NilEmpty.string_of_uint d)).
Proof.
  induction d; simpl; constructor; try reflexivity; exact IHd.
Qed.

Lemma decimal_inj n n' :
  lit (NilZero.string_of_uint (Nat.to_uint n))
  = lit (NilZero.string_of_uint (Nat.to_uint n')) -> n = n'.
Proof.
  rewrite !decimal_of_nat. intros H. apply lit_inj in H.
  apply DecimalNat.Unsigned.to_uint_inj.
  assert (E : Some (Nat.to_uint n) = Some (Nat.to_uint n'))
    by (rewrite <- !NilEmpty.usu; now rewrite H).
  now injection E.
Qed.

(** A normal decimal of two digits or more does not start with a zero. *)
Lemma decimal_no_leading_zero n r :
  lit (NilZero.string_of_uint (Nat.to_uint n)) = 48%N :: r -> r = [].
Proof.
  rewrite decimal_of_nat. pose proof (to_uint_normal n) as Hn.
  destruct (Nat.to_uint n) as [|u| | | | | | | | |]; try discriminate.
  intros H. simpl in H. injection H as <-.
  rewrite DecimalFacts.unorm_D0 in Hn. unfold Decimal.unorm in Hn.
  destruct (Decimal.nzhead u) eqn:E;
    try (now injection Hn as <-); try discriminate Hn.
  exfalso. rewrite <- E in Hn. exact (DecimalFacts.nzhead_nonzero _ _ Hn).
Qed.

Lemma format_02d_digits n : Forall (fun c => is_digit c = true) (format_02d n).
Proof.
  unfold format_02d. rewrite decimal_of_nat.
  pose proof (decimal_digits (Nat.to_uint n)) as H.
  destruct (List.length _ <? 2)%nat; [|exact H].
  constructor; [reflexivity|exact H].
Qed.

Lemma format_02d_inj a b : format_02d a = format_02d b -> a = b.
Proof.
  unfold format_02d.
  destruct (List.length (lit (NilZero.string_of_uint (Nat.to_uint a))) <? 2)%nat
    eqn:Ea;
  destruct (List.length (lit (NilZero.string_of_uint (Nat.to_uint b))) <? 2)%nat
    eqn:Eb; intros H.
  - injection H as H. now apply decimal_inj.
  - symmetry in H. pose proof (decimal_no_leading_zero _ _ H) as Hr.
    rewrite H in Eb. apply Nat.ltb_ge in Eb. rewrite Hr in Eb.
    simpl in Eb. lia.
  - pose proof (decimal_no_leading_zero _ _ H) as Hr.
    rewrite H in Ea. apply Nat.ltb_ge in Ea. rewrite Hr in Ea.
    simpl in Ea. lia.
  - now apply decimal_inj.
Qed.

Lemma first_separator {A} (c : A) l1 :
  forall l2 r1 r2, ~ In c l1 -> ~ In c l2 ->
    l1 ++ c :: r1 = l2 ++ c :: r2 -> l1 = l2.
Proof.
  induction l1 as [|x l1 IH]; intros [|y l2] r1 r2 H1 H2 H; simpl in *.
  - reflexivity.
  - injection H as -> _. destruct H2. now left.
  - injection H as -> _. destruct H1. now left.
  - injection H as -> H. f_equal. apply (IH l2 r1 r2); auto.
Qed.

Lemma digit_not_underscore c : is_digit c = true -> c <> underscore.
Proof. intros H ->. discriminate H. Qed.

Lemma make_filename_index prefix i j t t' :
  make_filename prefix i t = make_filename prefix j t' -> i = j.
Proof.
  unfold make_filename. intros H.
  apply app_inv_head in H. change (lit "_") with [underscore] in H.
  simpl in H. injection H as H.
  assert (Hd : forall n, ~ In underscore (format_02d n)).
  { intros n Hin.
    pose proof (proj1 (Forall_forall _ _) (format_02d_digits n) _ Hin) as D.
    now apply digit_not_underscore in D. }
  apply first_separator in H; [|apply Hd|apply Hd].
  apply format_02d_inj in H. lia.
Qed.

Lemma plan_from_indices total prefix todo i e :
  In e (fst (plan_from total prefix i todo)) ->
  exists k t, (i <= k)%nat /\ filename e = make_filename prefix k t.
Proof.
  intros He. apply In_nth_error in He. destruct He as [j Hj].
  apply plan_from_origin in Hj. destruct Hj as [k [nd [_ [_ [_ [-> _]]]]]].
  exists (i + k)%nat, (title nd). split; [lia|reflexivity].
Qed.

Lemma plan_from_filenames_distinct total prefix todo :
  forall i, NoDup (map filename (fst (plan_from total prefix i todo))).
Proof.
  induction todo as [|nd todo' IH]; intros i; [constructor|].
  simpl. destruct (page nd >=? next_start total todo'); simpl; [apply IH|].
  constructor; [|apply IH].
  intros Hin. apply in_map_iff in Hin. destruct Hin as [e [Hf He]].
  apply plan_from_indices in He. destruct He as [k [t [Hk Hfe]]].
  rewrite Hfe in Hf. apply make_filename_index in Hf. lia.
Qed.

(** X2: the file names of a plan are pairwise distinct, so [execute_split]
    never writes two sections to one file name. *)
Theorem plan_filenames_distinct (r : PdfReader) (name : pystr) (layer : Z)
  (prefix : option pystr) :
  NoDup (map filename
           (fst (generate_split_plan (Opened r) name layer prefix))).
Proof.
  rewrite generate_split_plan_entries. apply plan_from_filenames_distinct.
Qed.

(** ** Characters of file names *)

Lemma clean_app s s' : clean s -> clean s' -> clean (s ++ s').
Proof. unfold clean. intros H H'. apply Forall_app. now split. Qed.

Lemma digit_kept c : is_digit c = true -> kept c = true.
Proof.
  unfold is_digit. intros H. apply andb_prop in H. destruct H as [H1 H2].
  apply N.leb_le in H1, H2.
  assert (E : (c = 48 \/ c = 49 \/ c = 50 \/ c = 51 \/ c = 52 \/ c = 53
               \/ c = 54 \/ c = 55 \/ c = 56 \/ c = 57)%N) by lia.
  repeat (destruct E as [->|E]; [reflexivity|]). now subst c.
Qed.

Lemma default_prefix_clean name : clean (default_prefix name).
Proof.
  rewrite default_prefix_words.
  destruct (join_firstn_prefix [underscore]
              (split_on underscore (sanitize_filename name)) 10)
    as [rest H].
  rewrite join_split_on_underscore in H.
  pose proof (sanitize_kept name) as K. rewrite H in K.
  apply Forall_app in K. exact (proj1 K).
Qed.

Lemma resolve_prefix_clean name prefix : clean (resolve_prefix name prefix).
Proof.
  destruct prefix as [[|c p]|]; simpl; try apply default_prefix_clean.
  apply sanitize_kept.
Qed.

Lemma make_filename_clean prefix i t :
  clean prefix -> clean (make_filename prefix i t).
Proof.
  intros Hp. unfold make_filename.
  repeat apply clean_app; try exact Hp; try apply sanitize_kept.
  - repeat constructor.
  - apply Forall_forall. intros c Hc. apply digit_kept.
    exact (proj1 (Forall_forall _ _) (format_02d_digits _) c Hc).
  - repeat constructor.
  - repeat constructor.
Qed.

(** X3: whatever the titles, the file name and the prefix, a file name of
    the plan starts with the resolved prefix and holds no character of the
    class of [sanitize_filename] and no space; in particular it holds no
    slash and no backslash. *)
Theorem plan_filenames_clean (r : PdfReader) (name : pystr) (layer : Z)
  (prefix : option pystr) (e : entry) :
  In e (fst (generate_split_plan (Opened r) name layer prefix)) ->
  (exists rest, filename e = resolve_prefix name prefix ++ rest)
  /\ (forall c, In c (filename e) -> ~ In c invalid_chars /\ c <> space)
  /\ ~ In 47%N (filename e) /\ ~ In 92%N (filename e).
Proof.
  rewrite generate_split_plan_entries. intros He.
  apply In_nth_error in He. destruct He as [j Hj].
  apply plan_from_origin in Hj. destruct Hj as [k [nd [_ [_ [_ [-> _]]]]]].
  cbn [filename].
  pose proof (make_filename_clean (resolve_prefix name prefix) (0 + k)
                (title nd) (resolve_prefix_clean name prefix)) as K.
  unfold clean in K. rewrite Forall_forall in K.
  split; [eexists; reflexivity|]. split; [|split].
  - intros c Hc. split; [apply kept_not_invalid|apply kept_not_space];
      now apply K.
  - intros Hc. apply K in Hc. discriminate Hc.
  - intros Hc. apply K in Hc. discriminate Hc.
Qed.

Lemma plan_filenames_clean_witness :
  ~ In 47%N (lit "a_b_01_1_2.pdf").
Proof.
  apply (plan_filenames_clean
           (mk_reader [Dest (lit "1/2") (Some 0)] 3) (lit "x") 1
           (Some (lit "a/b"))
           (mk_entry (lit "1/2") 0 3 (lit "a_b_01_1_2.pdf"))).
  vm_compute. tauto.
Defined.

(** ** More on [sanitize_filename] *)

Lemma strip_kept_ends a s b :
  isspace a = false -> isspace b = false ->
  strip (a :: s ++ [b]) = a :: s ++ [b].
Proof.
  intros Ha Hb. unfold strip, rstrip.
  rewrite (lstrip_fixed (a :: s ++ [b])) by exact Ha.
  rewrite app_comm_cons, rev_unit.
  rewrite (lstrip_fixed (b :: rev (a :: s))) by exact Hb.
  rewrite <- rev_unit. apply rev_involutive.
Qed.

(** X4: spaces at the ends of a name are not trimmed: the substitution
    comes before the strip, so they become underscores, and everything
    between them is kept in place. *)
Theorem sanitize_filename_keeps_outer_spaces (s : pystr) :
  sanitize_filename (space :: s ++ [space])
  = underscore :: replace_spaces (re_sub_invalid s) ++ [underscore]
  /\ List.length (sanitize_filename (space :: s ++ [space]))
     = (List.length s + 2)%nat.
Proof.
  assert (E : sanitize_filename (space :: s ++ [space])
              = underscore :: replace_spaces (re_sub_invalid s) ++ [underscore]).
  { unfold sanitize_filename, replace_spaces, re_sub_invalid.
    simpl map. rewrite !map_app. simpl map.
    change (if is_invalid space then underscore else space) with space.
    change (if (space =? space)%N then underscore else space) with underscore.
    now apply strip_kept_ends. }
  split; [exact E|]. rewrite E. simpl. rewrite length_app.
  unfold replace_spaces, re_sub_invalid. rewrite !length_map. simpl. lia.
Qed.

(** X5: the names that [sanitize_filename] returns unchanged are exactly
    those made of characters outside the class, without a space, that
    neither start nor end with whitespace. *)
Theorem sanitize_filename_fixed_points (s : pystr) :
  sanitize_filename s = s <-> clean s /\ strip s = s.
Proof.
  split.
  - intros H. assert (K : clean s) by (rewrite <- H; apply sanitize_kept).
    split; [exact K|]. unfold sanitize_filename in H.
    now rewrite (substitutions_fixed s K) in H.
  - intros [K H]. unfold sanitize_filename.
    now rewrite (substitutions_fixed s K).
Qed.

(** ** More on the outline selector *)

Lemma flat_map_ext_on {A B} (f g : A -> list B) (l : list A) :
  (forall x, In x l -> f x = g x) -> flat_map f l = flat_map g l.
Proof.
  induction l as [|x l IH]; intros H; [reflexivity|].
  simpl. rewrite (H x (or_introl eq_refl)). f_equal.
  apply IH. intros y Hy. apply H. now right.
Qed.

(** X6: the selector returns, in depth-first order, exactly the resolved
    destinations that sit at the target depth or sit above it without
    children: none of them is left out. *)
Theorem selector_exact (o : list item) (d : Z) :
  get_split_nodes o 1 d = flat_map (selected d) (destinations o 1)
  /\ (forall t p lvl,
        In (mk_node t p lvl) (get_split_nodes o 1 d)
        <-> exists hc,
              In (mk_occ t (Some p) lvl hc) (destinations o 1)
              /\ (lvl = d \/ lvl < d /\ hc = false)).
Proof.
  split; [apply get_split_nodes_selected|].
  intros t p lvl. split.
  - intros H. exact (boundary_origin o 1 d (mk_node t p lvl) H).
  - intros [hc [Hin Hsel]]. rewrite get_split_nodes_selected.
    apply in_flat_map. exists (mk_occ t (Some p) lvl hc). split; [exact Hin|].
    unfold selected. simpl.
    replace ((lvl =? d) || (lvl <? d) && negb hc) with true; [now left|].
    symmetry. destruct Hsel as [->|[Hlt ->]].
    + now rewrite Z.eqb_refl.
    + apply orb_true_iff. right. apply andb_true_iff. split; [lia|reflexivity].
Qed.

Lemma selector_exact_witness :
  In (mk_node (lit "B") 10 1) (get_split_nodes scenario_outline 1 2).
Proof.
  apply (proj2 (selector_exact scenario_outline 2) (lit "B") 10 1).
  exists false. split; [vm_compute; tauto|right; split; [lia|reflexivity]].
Defined.

(** X7: a layer below 1 selects nothing, whatever the outline, and [main]
    then exits with code 1. *)
Theorem layer_below_one_fails (r : PdfReader) (name : pystr) (layer : Z)
  (prefix : option pystr) :
  layer < 1 ->
  get_split_nodes (outline r) 1 layer = []
  /\ fst (main (Opened r) name layer prefix) = SysExit 1.
Proof.
  intros H.
  assert (E : get_split_nodes (outline r) 1 layer = []).
  { rewrite get_split_nodes_selected. now apply nothing_selected_below. }
  split; [exact E|].
  rewrite main_exits_on_empty_plan; [reflexivity|].
  now rewrite generate_split_plan_nothing.
Qed.

Lemma layer_below_one_fails_witness :
  get_split_nodes (outline scenario_reader) 1 0 = []
  /\ fst (main (Opened scenario_reader) (lit "doc") 0 None) = SysExit 1.
Proof.
  apply (layer_below_one_fails scenario_reader (lit "doc") 0 None). lia.
Defined.

(** X8: when the layer is deeper than every destination of the outline,
    the selector returns the resolved destinations without children, and a
    still deeper layer gives the same boundaries. *)
Theorem layer_beyond_outline_selects_leaves (o : list item) (d : Z) :
  (forall x, In x (destinations o 1) -> occ_depth x < d) ->
  get_split_nodes o 1 d = flat_map leaf_node (destinations o 1)
  /\ forall d', d <= d' -> get_split_nodes o 1 d' = get_split_nodes o 1 d.
Proof.
  intros H.
  assert (L : forall d', d <= d' ->
            get_split_nodes o 1 d' = flat_map leaf_node (destinations o 1)).
  { intros d' Hd'. rewrite get_split_nodes_selected.
    apply flat_map_ext_on. intros x Hx. specialize (H x Hx).
    unfold selected, leaf_node.
    replace (occ_depth x =? d') with false by lia.
    replace (occ_depth x <? d') with true by lia.
    now destruct (occ_has_children x). }
  split; [apply L; lia|].
  intros d' Hd'. rewrite (L d' Hd'). symmetry. apply L. lia.
Qed.

Lemma layer_beyond_outline_selects_leaves_witness :
  get_split_nodes scenario_outline 1 7 = get_split_nodes scenario_outline 1 3.
Proof.
  apply (layer_beyond_outline_selects_leaves scenario_outline 3); [|lia].
  intros x Hx. vm_compute in Hx.
  destruct Hx as [<-|[<-|[<-|[<-|[]]]]]; reflexivity.
Defined.

Lemma flat_outline_no_list l : no_list_ahead (flat_outline l).
Proof. now destruct l. Qed.

(** X9: for an outline without nested lists every layer from 1 on gives
    one boundary, at level 1, for each destination that resolves, in the
    order of the outline. *)
Theorem flat_outline_boundaries (l : list (pystr * option Z)) (d : Z) :
  1 <= d ->
  get_split_nodes (flat_outline l) 1 d
  = flat_map (fun tp => append_node (fst tp) (snd tp) 1) l.
Proof.
  intros Hd. induction l as [|[t p] l IH]; [reflexivity|].
  change (flat_outline ((t, p) :: l)) with (Dest t p :: flat_outline l).
  rewrite get_split_nodes_leaf by apply flat_outline_no_list.
  rewrite IH.
  replace ((1 =? d) || (1 <? d)) with true by lia. reflexivity.
Qed.

Lemma flat_outline_boundaries_witness :
  get_split_nodes
    (flat_outline [(lit "X", Some 3); (lit "Q", None); (lit "Y", Some 3)]) 1 4
  = [mk_node (lit "X") 3 1; mk_node (lit "Y") 3 1].
Proof.
  apply (flat_outline_boundaries
           [(lit "X", Some 3); (lit "Q", None); (lit "Y", Some 3)] 4).
  lia.
Defined.

(** ** The plan for any page count *)

Lemma last_default {A} (l : list A) d d' : l <> [] -> last l d = last l d'.
Proof.
  induction l as [|x l IH]; intros H; [now destruct H|].
  destruct l as [|y l]; [reflexivity|]. simpl in *. apply IH. discriminate.
Qed.

Lemma ascending_last_greatest l :
  forall nd, ascending (nd :: l) ->
    In (last (nd :: l) nd) (nd :: l)
    /\ forall n, In n (nd :: l) -> page n <= page (last (nd :: l) nd).
Proof.
  induction l as [|b l IH]; intros nd H.
  - simpl. split; [now left|]. intros n [<-|[]]. lia.
  - destruct H as [Hab Hl]. destruct (IH b Hl) as [Hin Hmax].
    assert (E : last (nd :: b :: l) nd = last (b :: l) b)
      by (change (last (nd :: b :: l) nd) with (last (b :: l) nd);
          apply last_default; discriminate).
    rewrite E. split; [now right|].
    intros n [<-|Hn]; [|now apply Hmax].
    specialize (Hmax b (or_introl eq_refl)). lia.
Qed.

Lemma plan_from_tiles_max total prefix todo :
  forall i nd todo',
    todo = nd :: todo' -> ascending todo ->
    tiles (page nd) (Z.max total (page (last todo nd)))
      (fst (plan_from total prefix i todo)).
Proof.
  induction todo as [|nd0 rest IH]; intros i nd todo' E Hs; [discriminate|].
  injection E as -> ->. destruct Hs as [Hh Hs]. simpl plan_from.
  destruct todo' as [|nx todo''].
  - simpl. destruct (page nd >=? total) eqn:E; simpl; [lia|].
    repeat split; lia.
  - specialize (IH (S i) nx todo'' eq_refl Hs).
    replace (last (nd :: nx :: todo'') nd) with (last (nx :: todo'') nx)
      by (change (last (nd :: nx :: todo'') nd) with (last (nx :: todo'') nd);
          apply last_default; discriminate).
    change (next_start total (nx :: todo'')) with (page nx).
    destruct (page nd >=? page nx) eqn:E.
    + replace (page nd) with (page nx) by lia. exact IH.
    + cbn [fst tiles start_page end_page]. repeat split; [lia|exact IH].
Qed.

(** The plan tiles the pages from the least boundary page to the page
    count or the greatest boundary page, whichever is larger. *)
Lemma plan_tiles_any r name layer prefix :
  get_split_nodes (outline r) 1 layer <> [] ->
  exists first last_,
    In first (get_split_nodes (outline r) 1 layer)
    /\ In last_ (get_split_nodes (outline r) 1 layer)
    /\ (forall n, In n (get_split_nodes (outline r) 1 layer) ->
          page first <= page n <= page last_)
    /\ tiles (page first) (Z.max (Z.of_nat (num_pages r)) (page last_))
         (fst (generate_split_plan (Opened r) name layer prefix)).
Proof.
  intros Hne. rewrite generate_split_plan_entries.
  pose proof (sort_by_page_ascending (get_split_nodes (outline r) 1 layer))
    as Hs.
  destruct (sort_by_page (get_split_nodes (outline r) 1 layer))
    as [|nd raw'] eqn:E; [apply sort_by_page_nil in E; contradiction|].
  destruct (ascending_last_greatest raw' nd Hs) as [Hlast Hmax].
  exists nd, (last (nd :: raw') nd).
  assert (Hsub : forall n, In n (nd :: raw') <->
                   In n (get_split_nodes (outline r) 1 layer))
    by (intros n; rewrite <- E; apply sort_by_page_In).
  split; [apply Hsub; now left|]. split; [now apply Hsub|]. split.
  - intros n Hn. apply Hsub in Hn. split;
      [now apply (ascending_head_least _ _ Hs)|now apply Hmax].
  - now apply plan_from_tiles_max with (todo' := raw').
Qed.

Lemma tiles_empty_iff lo hi plan : tiles lo hi plan -> (plan = [] <-> lo = hi).
Proof.
  destruct plan as [|e plan]; simpl; intros H.
  - split; auto.
  - destruct H as [_ [H1 H2]]. apply tiles_le in H2.
    split; [discriminate|lia].
Qed.

(** X10: for every page count, the entries of the plan are in increasing
    page order and pairwise disjoint, and together they cover exactly the
    pages from the least boundary page up to the page count or the greatest
    boundary page, whichever is larger. *)
Theorem plan_ranges_for_any_page_count (r : PdfReader) (name : pystr)
  (layer : Z) (prefix : option pystr) :
  let plan := fst (generate_split_plan (Opened r) name layer prefix) in
  let boundaries := get_split_nodes (outline r) 1 layer in
  (forall i j a b, (i < j)%nat ->
     nth_error plan i = Some a -> nth_error plan j = Some b ->
     end_page a <= start_page b /\ start_page a < start_page b
     /\ forall q, ~ (in_range q a /\ in_range q b))
  /\ (boundaries <> [] ->
      exists first last_,
        In first boundaries /\ In last_ boundaries
        /\ (forall n, In n boundaries -> page first <= page n <= page last_)
        /\ forall q,
             (exists e, In e plan /\ in_range q e)
             <-> page first <= q < Z.max (Z.of_nat (num_pages r)) (page last_)).
Proof.
  intros plan boundaries.
  destruct boundaries as [|n0 ns] eqn:E.
  - assert (Hp : plan = []).
    { unfold plan. rewrite generate_split_plan_entries.
      fold boundaries. now rewrite E. }
    rewrite Hp. split; [|now intros []].
    intros i j a b _ Ha. destruct i; discriminate Ha.
  - assert (Hne : get_split_nodes (outline r) 1 layer <> [])
      by (fold boundaries; rewrite E; discriminate).
    destruct (plan_tiles_any r name layer prefix Hne)
      as [first [last_ [Hf [Hl [Hb Ht]]]]].
    fold plan in Ht. fold boundaries in Hf, Hl, Hb. rewrite E in Hf, Hl, Hb.
    split.
    + intros i j a b Hij Ha Hb'.
      pose proof (tiles_ordered _ _ _ Ht i j a b Hij Ha Hb') as Hord.
      pose proof (tiles_bounds _ _ _ Ht a (nth_error_In _ _ Ha)) as Ba.
      pose proof (tiles_bounds _ _ _ Ht b (nth_error_In _ _ Hb')) as Bb.
      split; [exact Hord|]. split; [lia|].
      unfold in_range. intros q [Hqa Hqb]. lia.
    + intros _. exists first, last_.
      split; [exact Hf|]. split; [exact Hl|]. split; [exact Hb|].
      apply (tiles_cover _ _ _ Ht).
Qed.

Lemma plan_ranges_for_any_page_count_witness :
  exists first last_,
    In first (get_split_nodes (outline overshoot_reader) 1 1)
    /\ In last_ (get_split_nodes (outline overshoot_reader) 1 1)
    /\ (forall n, In n (get_split_nodes (outline overshoot_reader) 1 1) ->
          page first <= page n <= page last_)
    /\ forall q,
         (exists e,
            In e (fst (generate_split_plan (Opened overshoot_reader)
                         (lit "doc") 1 None))
            /\ in_range q e)
         <-> page first <= q
             < Z.max (Z.of_nat (num_pages overshoot_reader)) (page last_).
Proof.
  apply (proj2 (plan_ranges_for_any_page_count overshoot_reader (lit "doc") 1
                  None)).
  vm_compute. discriminate.
Defined.

Lemma main_exit_iff opened name layer prefix :
  fst (main opened name layer prefix) = SysExit 1
  <-> fst (generate_split_plan opened name layer prefix) = [].
Proof.
  split.
  - unfold main.
    destruct (generate_split_plan opened name layer prefix)
      as [[|e p] printed]; simpl; [reflexivity|discriminate].
  - intros H. now rewrite main_exits_on_empty_plan.
Qed.

(** X11: for a document that opens, [main] exits with code 1 exactly when
    all boundaries lie on one page and that page is at or beyond the page
    count; this includes the case of no boundary at all.  So one boundary
    inside the document is enough for a plan. *)
Theorem main_fails_iff_no_section (r : PdfReader) (name : pystr) (layer : Z)
  (prefix : option pystr) :
  let boundaries := get_split_nodes (outline r) 1 layer in
  (fst (main (Opened r) name layer prefix) = SysExit 1
   <-> (forall n, In n boundaries -> Z.of_nat (num_pages r) <= page n)
       /\ (forall n m, In n boundaries -> In m boundaries -> page n = page m))
  /\ ((exists n, In n boundaries /\ page n < Z.of_nat (num_pages r)) ->
      fst (main (Opened r) name layer prefix)
      = Continue (fst (generate_split_plan (Opened r) name layer prefix))).
Proof.
  intros boundaries.
  assert (Hiff : fst (generate_split_plan (Opened r) name layer prefix) = []
     <-> (forall n, In n boundaries -> Z.of_nat (num_pages r) <= page n)
         /\ (forall n m, In n boundaries -> In m boundaries ->
               page n = page m)).
  { destruct boundaries as [|n0 ns] eqn:E.
    - split.
      + intros _. split; [intros n []|intros n m []].
      + intros _. rewrite generate_split_plan_entries.
        fold boundaries. now rewrite E.
    - assert (Hne : get_split_nodes (outline r) 1 layer <> [])
        by (fold boundaries; rewrite E; discriminate).
      destruct (plan_tiles_any r name layer prefix Hne)
        as [first [last_ [Hf [Hl [Hb Ht]]]]].
      fold boundaries in Hf, Hl, Hb. rewrite E in Hf, Hl, Hb.
      rewrite (tiles_empty_iff _ _ _ Ht).
      pose proof (Hb first Hf) as Bf. split.
      + intros Heq. split.
        * intros n Hn. specialize (Hb n Hn). lia.
        * intros n m Hn Hm. pose proof (Hb n Hn). pose proof (Hb m Hm). lia.
      + intros [H1 H2]. specialize (H1 first Hf).
        specialize (H2 first last_ Hf Hl). lia. }
  split.
  - rewrite main_exit_iff. exact Hiff.
  - intros [n [Hn Hlt]].
    assert (Hp : fst (generate_split_plan (Opened r) name layer prefix) <> []).
    { intros Hp. apply Hiff in Hp. destruct Hp as [H1 _].
      specialize (H1 n Hn). lia. }
    unfold main.
    destruct (generate_split_plan (Opened r) name layer prefix)
      as [[|e p] printed]; simpl in *; [now destruct Hp|reflexivity].
Qed.

Lemma main_fails_iff_no_section_witness :
  fst (main (Opened tie_reader) (lit "doc") 1 None)
  = Continue (fst (generate_split_plan (Opened tie_reader) (lit "doc") 1 None)).
Proof.
  apply (proj2 (main_fails_iff_no_section tie_reader (lit "doc") 1 None)).
  exists (mk_node (lit "X") 3 1). split; [vm_compute; tauto|reflexivity].
Defined.

(** ** Which boundaries start a section *)

Lemma plan_from_starts total prefix todo :
  forall i p, ascending todo ->
    (In p (map start_page (fst (plan_from total prefix i todo)))
     <-> exists n, In n todo /\ page n = p
                   /\ (p < total \/ exists m, In m todo /\ p < page m)).
Proof.
  induction todo as [|nd todo' IH]; intros i p Hs.
  - simpl. split; [intros []|intros [n [[] _]]].
  - pose proof (ascending_head_least nd todo' Hs) as Hleast.
    destruct Hs as [Hh Hs]. specialize (IH (S i) p Hs). simpl plan_from.
    destruct todo' as [|nx todo''].
    + simpl. destruct (page nd >=? total) eqn:E; simpl.
      * split; [intros []|]. intros [n [[<-|[]] [Hp [Hlt|[m [[<-|[]] Hm]]]]]]; lia.
      * split.
        -- intros [<-|[]]. exists nd. split; [now left|]. split; [reflexivity|].
           left. lia.
        -- intros [n [[<-|[]] [Hp _]]]. now left.
    + change (next_start total (nx :: todo'')) with (page nx).
      destruct (page nd >=? page nx) eqn:E; cbn [fst map start_page In].
      * rewrite IH. split.
        -- intros [n [Hn [Hp Hc]]]. exists n. split; [now right|].
           split; [exact Hp|]. destruct Hc as [Hc|[m [Hm Hc]]]; [now left|].
           right. exists m. split; [now right|exact Hc].
        -- intros [n [Hn [Hp Hc]]].
           assert (Hc' : p < total \/
                         exists m, In m (nx :: todo'') /\ p < page m).
           { destruct Hc as [Hc|[m [[<-|Hm] Hc]]]; [now left| |].
             - specialize (Hleast n Hn). lia.
             - right. now exists m. }
           destruct Hn as [<-|Hn].
           ++ exists nx. split; [now left|]. split; [lia|exact Hc'].
           ++ exists n. split; [exact Hn|]. split; [exact Hp|exact Hc'].
      * rewrite IH. split.
        -- intros [<-|[n [Hn [Hp Hc]]]].
           ++ exists nd. split; [now left|]. split; [reflexivity|].
              right. exists nx. split; [right; now left|lia].
           ++ exists n. split; [now right|]. split; [exact Hp|].
              destruct Hc as [Hc|[m [Hm Hc]]]; [now left|].
              right. exists m. split; [now right|exact Hc].
        -- intros [n [[<-|Hn] [Hp Hc]]]; [now left|right].
           exists n. split; [exact Hn|]. split; [exact Hp|].
           destruct Hc as [Hc|[m [[<-|Hm] Hc]]]; [now left| |].
           ++ specialize (Hleast n (or_intror Hn)). lia.
           ++ right. now exists m.
Qed.

(** X12: a page starts a section of the plan exactly when a boundary lies
    on it and the page is below the page count or below another boundary
    page.  So when every boundary lies inside the document, the start pages
    of the plan are the boundary pages. *)
Theorem plan_start_pages (r : PdfReader) (name : pystr) (layer : Z)
  (prefix : option pystr) :
  let plan := fst (generate_split_plan (Opened r) name layer prefix) in
  let boundaries := get_split_nodes (outline r) 1 layer in
  let total := Z.of_nat (num_pages r) in
  (forall p,
     In p (map start_page plan)
     <-> exists n, In n boundaries /\ page n = p
                   /\ (p < total \/ exists m, In m boundaries /\ p < page m))
  /\ ((forall n, In n boundaries -> page n < total) ->
      forall p, In p (map start_page plan) <-> In p (map page boundaries)).
Proof.
  intros plan boundaries total.
  assert (H : forall p,
     In p (map start_page plan)
     <-> exists n, In n boundaries /\ page n = p
                   /\ (p < total \/ exists m, In m boundaries /\ p < page m)).
  { intros p. unfold plan. rewrite generate_split_plan_entries.
    rewrite plan_from_starts by apply sort_by_page_ascending.
    fold boundaries total. split.
    - intros [n [Hn [Hp Hc]]]. exists n.
      split; [now apply sort_by_page_In|]. split; [exact Hp|].
      destruct Hc as [Hc|[m [Hm Hc]]]; [now left|right].
      exists m. split; [now apply sort_by_page_In|exact Hc].
    - intros [n [Hn [Hp Hc]]]. exists n.
      split; [now apply sort_by_page_In|]. split; [exact Hp|].
      destruct Hc as [Hc|[m [Hm Hc]]]; [now left|right].
      exists m. split; [now apply sort_by_page_In|exact Hc]. }
  split; [exact H|].
  intros Hb p. rewrite H, in_map_iff. split.
  - intros [n [Hn [Hp _]]]. now exists n.
  - intros [n [Hp Hn]]. exists n. split; [exact Hn|]. split; [exact Hp|].
    left. rewrite <- Hp. now apply Hb.
Qed.

Lemma plan_start_pages_witness :
  In 5 (map start_page
          (fst (generate_split_plan (Opened scenario_reader) (lit "doc") 2 None)))
  <-> In 5 (map page (get_split_nodes (outline scenario_reader) 1 2)).
Proof.
  apply (proj2 (plan_start_pages scenario_reader (lit "doc") 2 None)).
  intros n Hn. vm_compute in Hn.
  destruct Hn as [<-|[<-|[<-|[]]]]; reflexivity.
Defined.

Lemma filter_none {A} (f : A -> bool) (l : list A) :
  (forall x, In x l -> f x = false) -> filter f l = [].
Proof.
  induction l as [|x l IH]; intros H; [reflexivity|].
  simpl. rewrite (H x (or_introl eq_refl)). apply IH.
  intros y Hy. apply H. now right.
Qed.

Lemma plan_from_title_last total prefix todo :
  forall i e, ascending todo ->
    In e (fst (plan_from total prefix i todo)) ->
    exists before n,
      filter (fun x => page x =? start_page e) todo = before ++ [n]
      /\ entry_title e = title n.
Proof.
  induction todo as [|nd todo' IH]; intros i e Hs He; [destruct He|].
  simpl in He.
  assert (Hrec : In e (fst (plan_from total prefix (S i) todo')) ->
    exists before n,
      filter (fun x => page x =? start_page e) (nd :: todo') = before ++ [n]
      /\ entry_title e = title n).
  { intros He'. destruct (IH (S i) e (proj2 Hs) He') as [before [n [Hf Ht]]].
    simpl. destruct (page nd =? start_page e).
    - exists (nd :: before), n. rewrite Hf. split; [reflexivity|exact Ht].
    - exists before, n. split; [exact Hf|exact Ht]. }
  destruct (page nd >=? next_start total todo') eqn:E; simpl in He;
    [now apply Hrec|].
  destruct He as [<-|He]; [|now apply Hrec].
  exists [], nd. cbn [start_page entry_title]. split; [|reflexivity].
  simpl. rewrite Z.eqb_refl. f_equal. apply filter_none.
  intros x Hx. destruct todo' as [|nx todo'']; [destruct Hx|].
  simpl in E. destruct Hs as [_ Hs].
  pose proof (ascending_head_least nx todo'' Hs x Hx). lia.
Qed.

(** X13: when several boundaries lie on one page, the section that starts
    on that page carries the title of the last of them in the order of the
    outline. *)
Theorem section_title_is_last_on_page (r : PdfReader) (name : pystr)
  (layer : Z) (prefix : option pystr) (e : entry) :
  In e (fst (generate_split_plan (Opened r) name layer prefix)) ->
  exists before n,
    filter (fun x => page x =? start_page e)
      (get_split_nodes (outline r) 1 layer)
    = before ++ [n]
    /\ entry_title e = title n.
Proof.
  rewrite generate_split_plan_entries. intros He.
  apply plan_from_title_last in He; [|apply sort_by_page_ascending].
  now rewrite sort_by_page_stable in He.
Qed.

Lemma section_title_is_last_on_page_witness :
  exists before n,
    filter (fun x => page x =? 3) (get_split_nodes (outline tie_reader) 1 1)
    = before ++ [n]
    /\ lit "Y" = title n.
Proof.
  apply (section_title_is_last_on_page tie_reader (lit "doc") 1 None
           (mk_entry (lit "Y") 3 10 (lit "doc_02_Y.pdf"))).
  vm_compute. tauto.
Defined.

(** ** Executing a plan *)

Lemma In_py_range a b p : In p (py_range a b) <-> a <= p < b.
Proof.
  unfold py_range. rewrite in_map_iff. split.
  - intros [k [<- Hk]]. apply in_seq in Hk. lia.
  - intros H. exists (Z.to_nat (p - a)). split; [lia|]. apply in_seq. lia.
Qed.

Lemma add_pages_none n ps p :
  In p ps -> page_at n p = None -> add_pages n ps = None.
Proof.
  induction ps as [|q ps IH]; intros Hin Hp; [destruct Hin|].
  simpl. destruct Hin as [->|Hin]; [now rewrite Hp|].
  destruct (page_at n q); [|reflexivity]. now rewrite (IH Hin Hp).
Qed.

Lemma page_at_inside n p :
  0 <= p < Z.of_nat n -> page_at n p = Some (Z.to_nat p).
Proof.
  intros H. unfold page_at.
  replace (p <? 0) with false by lia.
  replace ((p <? 0) || (Z.of_nat n <=? p)) with false by lia. reflexivity.
Qed.

Lemma page_at_beyond n p : Z.of_nat n <= p -> page_at n p = None.
Proof.
  intros H. unfold page_at.
  replace (p <? 0) with false by lia.
  replace ((p <? 0) || (Z.of_nat n <=? p)) with true by lia. reflexivity.
Qed.

Lemma add_pages_inside n a :
  0 <= a ->
  forall len s, a + Z.of_nat (s + len) <= Z.of_nat n ->
    add_pages n (map (fun k => a + Z.of_nat k) (seq s len))
    = Some (seq (Z.to_nat a + s) len).
Proof.
  intros Ha. induction len as [|len IH]; intros s H; [reflexivity|].
  simpl. rewrite page_at_inside by lia.
  rewrite (IH (S s)) by lia.
  repeat f_equal; lia.
Qed.

Lemma add_pages_range n a b :
  0 <= a -> b <= Z.of_nat n ->
  add_pages n (py_range a b) = Some (seq (Z.to_nat a) (Z.to_nat (b - a))).
Proof.
  intros Ha Hb. unfold py_range.
  destruct (Z_lt_ge_dec a b) as [Hlt|Hge].
  - rewrite add_pages_inside by lia. f_equal. f_equal. lia.
  - replace (Z.to_nat (b - a)) with 0%nat by lia. reflexivity.
Qed.

Lemma execute_split_loop_tiles path_join fs n output_dir plan :
  forall lo, 0 <= lo -> tiles lo (Z.of_nat n) plan ->
    (forall e, In e plan ->
       can_create fs (path_join output_dir (filename e)) = true) ->
    execute_split_loop path_join fs n plan output_dir
    = (map (fun e => mk_written (path_join output_dir (filename e))
                       (seq (Z.to_nat (start_page e))
                          (Z.to_nat (end_page e - start_page e)))) plan,
       map (fun e => lit "Created: " ++ path_join output_dir (filename e)) plan,
       true)
    /\ List.concat (map (fun e => seq (Z.to_nat (start_page e))
                               (Z.to_nat (end_page e - start_page e))) plan)
       = seq (Z.to_nat lo) (n - Z.to_nat lo).
Proof.
  induction plan as [|e plan IH]; intros lo Hlo Ht Hfs.
  - simpl in *. split; [reflexivity|].
    replace (n - Z.to_nat lo)%nat with 0%nat by lia. reflexivity.
  - destruct Ht as [H0 [H1 H2]]. pose proof (tiles_le _ _ _ H2) as Hle.
    destruct (IH (end_page e) ltac:(lia) H2
                (fun e' He' => Hfs e' (or_intror He'))) as [IH1 IH2].
    split.
    + simpl. rewrite add_pages_range by lia.
      rewrite (Hfs e (or_introl eq_refl)). now rewrite IH1.
    + simpl. rewrite IH2, H0.
      replace (n - Z.to_nat lo)%nat
        with (Z.to_nat (end_page e - lo) + (n - Z.to_nat (end_page e)))%nat
        by lia.
      rewrite seq_app. do 2 f_equal. lia.
Qed.

(** X14: take a file system on which the output directory exists or can be
    made and on which every file of the plan can be opened and written, and
    let the source open again.  When every boundary lies on a page from 0
    to the page count, [execute_split] on the generated plan runs to its end
    without an index out of range, writes one file per entry, in the order
    of the plan and under the entry's file name, and the pages it copies,
    file after file, are the pages of the document from the least boundary
    page to the last page, each exactly once and in order; the pages before
    the first boundary are in no file. *)
Theorem execute_split_copies_each_page_once (path_join : pystr -> pystr -> pystr)
  (fs : file_system) (r : PdfReader) (name : pystr) (layer : Z)
  (prefix : option pystr) (output_dir : pystr) :
  let plan := fst (generate_split_plan (Opened r) name layer prefix) in
  let boundaries := get_split_nodes (outline r) 1 layer in
  let result := execute_split path_join fs (Opened r) plan output_dir in
  dir_ready fs output_dir = true ->
  (forall e, In e plan ->
     can_create fs (path_join output_dir (filename e)) = true) ->
  boundaries <> [] ->
  (forall n, In n boundaries -> 0 <= page n <= Z.of_nat (num_pages r)) ->
  snd result = true
  /\ map out_path (fst (fst result))
     = map (fun e => path_join output_dir (filename e)) plan
  /\ snd (fst result)
     = map (fun e => lit "Created: " ++ path_join output_dir (filename e)) plan
  /\ exists first,
       In first boundaries
       /\ (forall n, In n boundaries -> page first <= page n)
       /\ List.concat (map out_pages (fst (fst result)))
          = seq (Z.to_nat (page first))
              (num_pages r - Z.to_nat (page first)).
Proof.
  intros plan boundaries result Hdir Hfs Hne Hb.
  destruct (sort_by_page boundaries) as [|nd raw'] eqn:E;
    [apply sort_by_page_nil in E; contradiction|].
  destruct (plan_tiles_from_least r name layer prefix nd raw' E
              (fun n Hn => proj2 (Hb n Hn))) as [Ht [Hnd Hleast]].
  fold plan in Ht.
  destruct (execute_split_loop_tiles path_join fs (num_pages r) output_dir
              plan (page nd) (proj1 (Hb nd Hnd)) Ht Hfs) as [Hres Hcat].
  unfold result, execute_split. rewrite Hdir, Hres. cbn [fst snd].
  split; [reflexivity|]. split; [now rewrite map_map|].
  split; [reflexivity|].
  exists nd. split; [exact Hnd|]. split; [exact Hleast|].
  now rewrite map_map.
Qed.

Lemma execute_split_copies_each_page_once_witness :
  exists first,
    In first (get_split_nodes (outline tie_reader) 1 1)
    /\ (forall n, In n (get_split_nodes (outline tie_reader) 1 1) ->
          page first <= page n)
    /\ List.concat (map out_pages
                 (fst (fst (execute_split (fun d f => d ++ lit "/" ++ f)
                              willing_fs (Opened tie_reader)
                              (fst (generate_split_plan (Opened tie_reader)
                                      (lit "doc") 1 None))
                              (lit "out")))))
       = seq (Z.to_nat (page first))
           (num_pages tie_reader - Z.to_nat (page first)).
Proof.
  apply (execute_split_copies_each_page_once (fun d f => d ++ lit "/" ++ f)
           willing_fs tie_reader (lit "doc") 1 None (lit "out")).
  - reflexivity.
  - intros e _. reflexivity.
  - vm_compute. discriminate.
  - intros n Hn. vm_compute in Hn.
    destruct Hn as [<-|[<-|[]]]; vm_compute; split; discriminate.
Defined.

(** A file that cannot be created stops the run at its entry. *)
Lemma execute_split_loop_stops_at_unwritable path_join fs n output_dir e plan :
  can_create fs (path_join output_dir (filename e)) = false ->
  execute_split_loop path_join fs n (e :: plan) output_dir = ([], [], false).
Proof.
  intros H. simpl.
  destruct (add_pages n (py_range (start_page e) (end_page e)));
    [now rewrite H|reflexivity].
Qed.

Lemma execute_split_loop_overrun path_join fs n output_dir plan :
  forall lo hi, 0 <= lo -> Z.of_nat n < hi -> plan <> [] ->
    tiles lo hi plan ->
    snd (execute_split_loop path_join fs n plan output_dir) = false.
Proof.
  induction plan as [|e plan IH]; intros lo hi Hlo Hhi Hne Ht;
    [now destruct Hne|].
  destruct Ht as [H0 [H1 H2]]. simpl.
  destruct (add_pages n (py_range (start_page e) (end_page e))) as [pages|]
    eqn:E; [|reflexivity].
  destruct (can_create fs (path_join output_dir (filename e)));
    [|reflexivity].
  assert (Hend : end_page e <= Z.of_nat n).
  { destruct (Z_le_gt_dec (end_page e) (Z.of_nat n)) as [H|H]; [exact H|].
    exfalso.
    rewrite (add_pages_none n _ (Z.max lo (Z.of_nat n))) in E;
      [discriminate| |].
    - apply In_py_range. lia.
    - apply page_at_beyond. lia. }
  assert (Hne' : plan <> []).
  { intros ->. simpl in H2. lia. }
  specialize (IH (end_page e) hi ltac:(lia) Hhi Hne' H2).
  destruct (execute_split_loop path_join fs n plan output_dir)
    as [[files printed] fin].
  exact IH.
Qed.

(** X15: when the boundary pages are not negative and one of them lies
    beyond the page count, [execute_split] on a plan that has entries does
    not run to its end, on any file system: if nothing else stops it before,
    copying a page stops with an index out of range. *)
Theorem execute_split_fails_beyond_last_page
  (path_join : pystr -> pystr -> pystr) (fs : file_system) (r : PdfReader)
  (name : pystr) (layer : Z) (prefix : option pystr) (output_dir : pystr) :
  let plan := fst (generate_split_plan (Opened r) name layer prefix) in
  let boundaries := get_split_nodes (outline r) 1 layer in
  (forall n, In n boundaries -> 0 <= page n) ->
  (exists n, In n boundaries /\ Z.of_nat (num_pages r) < page n) ->
  plan <> [] ->
  snd (execute_split path_join fs (Opened r) plan output_dir) = false.
Proof.
  intros plan boundaries Hpos [n [Hn Hbig]] Hplan.
  assert (Hne : get_split_nodes (outline r) 1 layer <> []).
  { fold boundaries. intros E. rewrite E in Hn. destruct Hn. }
  destruct (plan_tiles_any r name layer prefix Hne)
    as [first [last_ [Hf [Hl [Hb Ht]]]]].
  fold plan in Ht. fold boundaries in Hf, Hl, Hb.
  unfold execute_split. destruct (dir_ready fs output_dir); [|reflexivity].
  apply (execute_split_loop_overrun path_join fs (num_pages r) output_dir plan
           (page first)
           (Z.max (Z.of_nat (num_pages r)) (page last_))).
  - now apply Hpos.
  - specialize (Hb n Hn). lia.
  - exact Hplan.
  - exact Ht.
Qed.

Lemma execute_split_fails_beyond_last_page_witness :
  snd (execute_split (fun d f => d ++ lit "/" ++ f) willing_fs
         (Opened overshoot_reader)
         (fst (generate_split_plan (Opened overshoot_reader) (lit "doc") 1 None))
         (lit "out"))
  = false.
Proof.
  apply (execute_split_fails_beyond_last_page (fun d f => d ++ lit "/" ++ f)
           willing_fs overshoot_reader (lit "doc") 1 None (lit "out")).
  - intros n Hn. vm_compute in Hn.
    destruct Hn as [<-|[<-|[]]]; vm_compute; discriminate.
  - exists (mk_node (lit "Y") 20 1). split; [vm_compute; tauto|reflexivity].
  - vm_compute. discriminate.
Defined.

Lemma sanitize_filename_fixed_points_witness :
  sanitize_filename (lit "Chapter_1.pdf") = lit "Chapter_1.pdf".
Proof.
  apply (proj2 (sanitize_filename_fixed_points (lit "Chapter_1.pdf"))).
  split; [repeat constructor|reflexivity].
Defined.
